(** * A REST gateway over a document store: model and properties

    Shallow embedding of [src/index.js]: the Express application that
    exposes the collections of a MongoDB database as REST resources and
    records GitHub webhooks, queueing a build for pushes to master.

    JavaScript values are an inductive type, objects are association
    lists in insertion order, and the asynchronous store calls with
    their [function (err, ...)] callbacks become a state monad over a
    [world] that holds the collections, the outcomes the store is going
    to report, the clock and the log of the store calls made so far. *)

From Stdlib Require Import ZArith String Ascii List Bool Lia.
From stdpp Require Import base gmap strings.
Import ListNotations.

Local Open Scope string_scope.
Local Open Scope list_scope.
Local Open Scope Z_scope.

(** ** JavaScript values *)

(** The values the handlers handle: what [JSON.parse] produces, plus
    [undefined], [Date] objects ([new Date()], as epoch milliseconds)
    and the driver's [ObjectID] (its 12 bytes, one character each).
    Numbers are integers here: the program only writes the literal [0]
    and compares a count with it. *)
#[warnings="-register-all"]
Inductive value : Type :=
| VUndefined
| VNull
| VBool (b : bool)
| VNum (n : Z)
| VStr (s : string)
| VDate (ms : Z)
| VId (bytes : string)
| VArr (items : list value)
| VObj (fields : list (string * value)).

(** A plain object: its own enumerable properties in insertion order. *)
Abbreviation obj := (list (string * value)).

Definition keys (o : obj) : list string := map fst o.

(** [o[k]]: the value of an own property, [undefined] when there is none. *)
Fixpoint get (o : obj) (k : string) : value :=
  match o with
  | [] => VUndefined
  | (k', v) :: o' => if String.eqb k' k then v else get o' k
  end.

(** [o[k] = v]: an existing property keeps its place, a new one is added
    at the end. *)
Fixpoint set (o : obj) (k : string) (v : value) : obj :=
  match o with
  | [] => [(k, v)]
  | (k', v') :: o' =>
      if String.eqb k' k then (k', v) :: o' else (k', v') :: set o' k v
  end.

(** [delete o[k]]. *)
Fixpoint del (o : obj) (k : string) : obj :=
  match o with
  | [] => []
  | (k', v) :: o' => if String.eqb k' k then del o' k else (k', v) :: del o' k
  end.

(** ToBoolean: what [!x] and [x && y] test. *)
Definition truthy (v : value) : bool :=
  match v with
  | VUndefined | VNull => false
  | VBool b => b
  | VNum n => negb (n =? 0)
  | VStr s => negb (String.eqb s "")
  | VDate _ | VId _ | VArr _ | VObj _ => true
  end.

(** [v == null]. *)
Definition nullish (v : value) : bool :=
  match v with
  | VUndefined | VNull => true
  | _ => false
  end.

(** [v === 'literal']: strict equality with a string literal. *)
Definition strict_eq_str (v : value) (s : string) : bool :=
  match v with
  | VStr t => String.eqb t s
  | _ => false
  end.

(** [v.k] on an arbitrary value: a TypeError ([None]) on [undefined] and
    [null], the own property on an object, the bytes for [id] on an
    ObjectID. The handlers read [full_name], [name], [clone_url] and [id]
    this way, which no string, number, boolean, array or date has. *)
Definition member (v : value) (k : string) : option value :=
  match v with
  | VUndefined | VNull => None
  | VObj o => Some (get o k)
  | VId b => Some (if String.eqb k "id" then VStr b else VUndefined)
  | _ => Some VUndefined
  end.

(** Structural equality, the way the store compares a field of a
    document with a value of a query. *)
Fixpoint value_eqb (v w : value) : bool :=
  match v, w with
  | VUndefined, VUndefined => true
  | VNull, VNull => true
  | VBool a, VBool b => Bool.eqb a b
  | VNum a, VNum b => (a =? b)
  | VStr a, VStr b => String.eqb a b
  | VDate a, VDate b => (a =? b)
  | VId a, VId b => String.eqb a b
  | VArr xs, VArr ys =>
      (fix items (xs ys : list value) : bool :=
         match xs, ys with
         | [], [] => true
         | x :: xs', y :: ys' => value_eqb x y && items xs' ys'
         | _, _ => false
         end) xs ys
  | VObj fs, VObj gs =>
      (fix fields (fs gs : obj) : bool :=
         match fs, gs with
         | [], [] => true
         | (k, x) :: fs', (k', y) :: gs' =>
             String.eqb k k' && value_eqb x y && fields fs' gs'
         | _, _ => false
         end) fs gs
  | _, _ => false
  end.

(** ** The world: store, clock and log *)

(** One call to the store, as the log records it. *)
Inductive op : Type :=
| OpCount (c : string)
| OpFind (c : string) (filter : obj)
| OpFindOne (c : string) (filter : obj)
| OpInsert (c : string) (doc : obj)
| OpUpdate (c : string) (selector : obj) (doc : obj)
| OpRemove (c : string) (selector : obj).

(** [colls] maps a collection name to its documents, oldest first.
    [faults] lists what the store answers to the calls to come: [None]
    for success, [Some e] for the error [e] handed to the callback; past
    its end every call succeeds. [clock] is what [new Date()] reads,
    [pk] numbers the identifiers the driver makes up, and [trace] is the
    log of the store calls, oldest first. *)
Record world : Type := World {
  colls : gmap string (list obj);
  faults : list (option value);
  clock : Z;
  pk : nat;
  trace : list op
}.

(** Computations that read and change the world. *)
Definition M (A : Type) : Type := world -> A * world.

Definition ret {A} (a : A) : M A := fun w => (a, w).

Definition bind {A B} (m : M A) (k : A -> M B) : M B :=
  fun w => let r := m w in k (fst r) (snd r).

Notation "'let*' x ':=' m 'in' k" := (bind m (fun x => k))
  (at level 10, x pattern, m at level 100, k at level 200).

(** The documents of a collection; a name never used has none. *)
Definition docs_of (w : world) (c : string) : list obj :=
  default [] (colls w !! c).

(** What the store will answer to its [n]-th call from now. *)
Definition fault_at (w : world) (n : nat) : option value :=
  match nth_error (faults w) n with
  | Some (Some e) => Some e
  | _ => None
  end.

(** Every store call is logged and uses up one answer. *)
Definition call (o : op) : M (option value) := fun w =>
  (fault_at w 0,
   World (colls w) (tail (faults w)) (clock w) (pk w) (trace w ++ [o])).

(** Write and read the documents of a collection. *)
Definition put_docs (c : string) (ds : list obj) : M unit := fun w =>
  (tt, World (<[c := ds]> (colls w)) (faults w) (clock w) (pk w) (trace w)).

Definition get_docs (c : string) : M (list obj) := fun w => (docs_of w c, w).

(** [new Date()]. *)
Definition new_Date : M value := fun w => (VDate (clock w), w).

(** ** The store driver

    The calls the handlers make on a collection of the MongoDB driver,
    by their documented contract. The callback's [(err, result)] is a
    [reply]. *)

Inductive reply (A : Type) : Type :=
| Failed (err : value)
| Done (a : A).
Arguments Failed {A} err.
Arguments Done {A} a.

(** The driver's identifier number [n], on 12 bytes. *)
Fixpoint be_bytes (len : nat) (n : N) : string :=
  match len with
  | O => ""
  | S len' =>
      String.append (be_bytes len' (n / 256)) (String (ascii_of_N (n mod 256)) "")
  end.

Arguments be_bytes : simpl never.

(** [pkFactory.createPk()]: a fresh [ObjectID]. *)
Definition createPk : M value := fun w =>
  (VId (be_bytes 12 (N.of_nat (pk w))),
   World (colls w) (faults w) (clock w) (S (pk w)) (trace w)).

(** A document matches a query when each field of the query equals the
    document's. This is the store's matching of a field against a plain
    value such as an identifier; its operator objects ([$ne], ...) and
    its matching of a value against the items of an array field are not
    modelled. *)
Definition matches (filter doc : obj) : bool :=
  forallb (fun kv => value_eqb (get doc (fst kv)) (snd kv)) filter.

(** Replace the first document matching [sel]; its [_id] stays. *)
Fixpoint replace_first (sel doc : obj) (ds : list obj) : list obj :=
  match ds with
  | [] => []
  | d :: ds' =>
      if matches sel d then (("_id", get d "_id") :: del doc "_id") :: ds'
      else d :: replace_first sel doc ds'
  end.

(** Remove the first document matching [sel]; the number removed. *)
Fixpoint remove_first (sel : obj) (ds : list obj) : list obj * Z :=
  match ds with
  | [] => ([], 0)
  | d :: ds' =>
      if matches sel d then (ds', 1)
      else let r := remove_first sel ds' in (d :: fst r, snd r)
  end.

Module Collection.

(** [collection.insert(doc, cb)]: the driver gives the document an
    [_id] when it has none, and answers with the inserted document. *)
Definition insert (c : string) (doc : obj) : M (reply obj) :=
  let* err := call (OpInsert c doc) in
  match err with
  | Some e => ret (Failed e)
  | None =>
      let* doc' :=
        (if nullish (get doc "_id")
         then let* i := createPk in ret (set doc "_id" i)
         else ret doc) in
      let* ds := get_docs c in
      let* _ := put_docs c (ds ++ [doc']) in
      ret (Done doc')
  end.

(** [collection.find(filter, cb)]: a cursor over the matching documents. *)
Definition find (c : string) (filter : obj) : M (reply (list obj)) :=
  let* err := call (OpFind c filter) in
  match err with
  | Some e => ret (Failed e)
  | None => let* ds := get_docs c in ret (Done (List.filter (matches filter) ds))
  end.

(** [collection.findOne(filter, cb)]: the first match, or nothing. *)
Definition findOne (c : string) (filter : obj) : M (reply (option obj)) :=
  let* err := call (OpFindOne c filter) in
  match err with
  | Some e => ret (Failed e)
  | None => let* ds := get_docs c in ret (Done (List.find (matches filter) ds))
  end.

(** [collection.update(selector, doc, {w:1}, cb)] with a document
    without operators: the first match is replaced, nothing is
    inserted when there is none. *)
Definition update (c : string) (sel doc : obj) : M (reply unit) :=
  let* err := call (OpUpdate c sel doc) in
  match err with
  | Some e => ret (Failed e)
  | None =>
      let* ds := get_docs c in
      let* _ := put_docs c (replace_first sel doc ds) in
      ret (Done tt)
  end.

(** [collection.remove(selector, {single: true, w:1}, cb)]: the
    callback gets the number of documents removed. *)
Definition remove (c : string) (sel : obj) : M (reply Z) :=
  let* err := call (OpRemove c sel) in
  match err with
  | Some e => ret (Failed e)
  | None =>
      let* ds := get_docs c in
      let r := remove_first sel ds in
      let* _ := put_docs c (fst r) in
      ret (Done (snd r))
  end.

(** [collection.count(cb)]. *)
Definition count (c : string) : M (reply Z) :=
  let* err := call (OpCount c) in
  match err with
  | Some e => ret (Failed e)
  | None => let* ds := get_docs c in ret (Done (Z.of_nat (length ds)))
  end.

End Collection.

(** ** Responses *)

Inductive payload : Type :=
| NoBody
| Text (s : string)
| Json (v : value)
| Stream (docs : list obj).

Record response : Type := Response { status : Z; content : payload }.

(** How a handler ends: with a response, or with an exception nobody
    catches (no response is written). *)
Inductive outcome : Type :=
| Responded (r : response)
| Threw (e : string).

(** [res.status(code).send(body)]. *)
Definition send (code : Z) (body : payload) : M outcome :=
  ret (Responded (Response code body)).

(** [res.sendStatus(code)]: the body is the status text, and Express
    drops the body of a 204. *)
Definition sendStatus (code : Z) : M outcome :=
  send code (if code =? 204 then NoBody
             else if code =? 201 then Text "Created"
             else if code =? 404 then Text "Not Found"
             else Text "").

(** ** POST /_hook/:endpoint? *)

(** The object literal [build]: its properties are evaluated in order,
    so a missing [repository] throws on the first one. *)
Definition build_job (endpoint : option string) (body : obj) : M (option obj) :=
  let repository := get body "repository" in
  match member repository "full_name" with
  | None => ret None
  | Some fullName =>
  match member repository "name" with
  | None => ret None
  | Some name =>
  match member repository "clone_url" with
  | None => ret None
  | Some repo =>
  match (if truthy (get body "head_commit")
         then member (get body "head_commit") "id"
         else Some (get body "head_commit")) with
  | None => ret None
  | Some commit =>
      let* createdAt := new_Date in
      ret (Some [ ("fullName", fullName);
                  ("name", name);
                  ("repo", repo);
                  ("commit", commit);
                  ("endpoint", match endpoint with
                               | Some e => VStr e
                               | None => VUndefined
                               end);
                  ("createdAt", createdAt);
                  ("buildAt", VNull);
                  ("nrOfAttempts", VNum 0);
                  ("isSuccessful", VBool false);
                  ("message", VNull);
                  ("pusher", get body "pusher") ])
  end end end end.

(** The handler of the webhook route; [body] is the payload the webhook
    middleware parsed. *)
Definition post_hook (endpoint : option string) (body : obj) : M outcome :=
  let hooks := "_hook" in
  let buildqueue := "buildqueue" in
  let* r := Collection.insert hooks body in
  match r with
  | Failed err => send 500 (Json err)
  | Done _ =>
      if negb (truthy (get body "ref")) then sendStatus 204
      else if negb (strict_eq_str (get body "ref") "refs/heads/master")
      then sendStatus 204
      else
        let* b := build_job endpoint body in
        match b with
        | None => ret (Threw "TypeError")
        | Some build =>
            let* r' := Collection.insert buildqueue build in
            match r' with
            | Failed err => send 500 (Json err)
            | Done _ => sendStatus 201
            end
        end
  end.

(** ** Path parameters *)

(** [str.camelize] of underscore.string: the string is trimmed, every
    run of dashes, underscores and white space is dropped and the
    character after it is put in upper case. White space and letter
    case are those of ASCII: on a segment with other characters the
    library also knows their upper case and the Unicode spaces. *)
Definition is_space (c : ascii) : bool :=
  let n := nat_of_ascii c in
  (n =? 32)%nat || ((9 <=? n)%nat && (n <=? 13)%nat).

Definition is_separator (c : ascii) : bool :=
  is_space c || Ascii.eqb c "-" || Ascii.eqb c "_".

Definition toUpperCase (c : ascii) : ascii :=
  let n := nat_of_ascii c in
  if (97 <=? n)%nat && (n <=? 122)%nat then ascii_of_nat (n - 32) else c.

Fixpoint drop_spaces (l : list ascii) : list ascii :=
  match l with
  | c :: l' => if is_space c then drop_spaces l' else l
  | [] => []
  end.

Definition trim (s : string) : string :=
  string_of_list_ascii
    (rev (drop_spaces (rev (drop_spaces (list_ascii_of_string s))))).

Fixpoint camelize_from (upper : bool) (s : string) : string :=
  match s with
  | EmptyString => EmptyString
  | String c s' =>
      if is_separator c then camelize_from true s'
      else String (if upper then toUpperCase c else c) (camelize_from false s')
  end.

Definition camelize (s : string) : string := camelize_from false (trim s).

(** [new mongodb.ObjectID(id)] on a string: 12 characters are taken as
    the 12 bytes, 24 hexadecimal digits are decoded, and anything else
    throws ([None]). *)
Definition is_hex (c : ascii) : bool :=
  let n := nat_of_ascii c in
  ((48 <=? n)%nat && (n <=? 57)%nat) ||
  ((65 <=? n)%nat && (n <=? 70)%nat) ||
  ((97 <=? n)%nat && (n <=? 102)%nat).

Definition hex_digit (c : ascii) : nat :=
  let n := nat_of_ascii c in
  if (n <=? 57)%nat then (n - 48)%nat
  else if (n <=? 70)%nat then (n - 55)%nat
  else (n - 87)%nat.

Fixpoint all_hex (s : string) : bool :=
  match s with
  | EmptyString => true
  | String c s' => is_hex c && all_hex s'
  end.

Fixpoint createFromHexString (s : string) : string :=
  match s with
  | String a (String b s') =>
      String (ascii_of_nat (16 * hex_digit a + hex_digit b)) (createFromHexString s')
  | _ => EmptyString
  end.

Definition ObjectID (id : string) : option string :=
  let n := String.length id in
  if negb (n =? 12)%nat && negb (n =? 24)%nat then None
  else if (n =? 12)%nat then Some id
  else if all_hex id then Some (createFromHexString id)
  else None.

Definition invalid_id_message : string :=
  "ID must be a single String of 12 bytes or a string of 24 hex character".

(** [app.param('resource', ...)]: the canonical name, which also stands
    for the handle [req.db.collection(req.resource)]. *)
Definition param_resource (resource : string) (next : string -> M outcome)
  : M outcome :=
  next (camelize resource).

(** [app.param('mainResource', ...)]: [req.parentField]. *)
Definition param_mainResource (mainResource : string)
  (next : string -> M outcome) : M outcome :=
  next (String.append (camelize mainResource) "Id").

(** [app.param('id', ...)]: [req.id], or 400 without calling [next]. *)
Definition param_id (id : string) (next : string -> M outcome) : M outcome :=
  match ObjectID id with
  | None =>
      send 400 (Json (VObj [("error", VBool true);
                            ("message", VStr invalid_id_message)]))
  | Some oid => next oid
  end.

(** ** The resource routes

    Each route runs the callbacks of its path parameters in the order of
    the path, then its handler. [body] is [req.body]: [None] when the
    request carries no body ([undefined]), the parsed JSON document
    otherwise. *)

(** GET /:resource *)
Definition get_resource (resource : string) (query : obj) : M outcome :=
  param_resource resource (fun collection =>
    let* r := Collection.find collection query in
    match r with
    | Failed err => send 500 (Json err)
    | Done cursor => send 200 (Stream cursor)
    end).

(** GET /:resource/:id *)
Definition get_resource_id (resource id : string) : M outcome :=
  param_resource resource (fun collection =>
  param_id id (fun oid =>
    let* r := Collection.findOne collection [("_id", VId oid)] in
    match r with
    | Failed err => send 500 (Json err)
    | Done None => sendStatus 404
    | Done (Some doc) => send 200 (Json (VObj doc))
    end)).

(** GET /:mainResource/:id/:resource *)
Definition get_nested (mainResource id resource : string) (query : obj)
  : M outcome :=
  param_mainResource mainResource (fun parentField =>
  param_id id (fun oid =>
  param_resource resource (fun collection =>
    let filter := set query parentField (VId oid) in
    let* r := Collection.find collection filter in
    match r with
    | Failed err => send 500 (Json err)
    | Done cursor => send 200 (Stream cursor)
    end))).

(** POST /:resource *)
Definition post_resource (resource : string) (body : option obj) : M outcome :=
  param_resource resource (fun collection =>
    match body with
    | None => send 400 NoBody
    | Some body =>
        let* createdAt := new_Date in
        let body := set body "createdAt" createdAt in
        let body := set body "updatedAt" (get body "createdAt") in
        let* r := Collection.insert collection body in
        match r with
        | Failed err => send 500 (Json err)
        | Done doc => send 200 (Json (VObj doc))
        end
    end).

(** POST /:mainResource/:id/:resource *)
Definition post_nested (mainResource id resource : string) (body : option obj)
  : M outcome :=
  param_mainResource mainResource (fun parentField =>
  param_id id (fun oid =>
  param_resource resource (fun collection =>
    match body with
    | None => send 400 NoBody
    | Some body =>
        let body := set body parentField (VId oid) in
        let* createdAt := new_Date in
        let body := set body "createdAt" createdAt in
        let body := set body "updatedAt" (get body "createdAt") in
        let* r := Collection.insert collection body in
        match r with
        | Failed err => send 500 (Json err)
        | Done doc => send 200 (Json (VObj doc))
        end
    end))).

(** PUT /:resource/:id *)
Definition put_resource_id (resource id : string) (body : option obj)
  : M outcome :=
  param_resource resource (fun collection =>
  param_id id (fun oid =>
    match body with
    | None => send 400 NoBody
    | Some body =>
        let body := del body "_id" in
        let* updatedAt := new_Date in
        let body := set body "updatedAt" updatedAt in
        let* r := Collection.update collection [("_id", VId oid)] body in
        match r with
        | Failed err => send 500 (Json err)
        | Done _ => sendStatus 204
        end
    end)).

(** DELETE /:resource/:id *)
Definition delete_resource_id (resource id : string) : M outcome :=
  param_resource resource (fun collection =>
  param_id id (fun oid =>
    let* r := Collection.remove collection [("_id", VId oid)] in
    match r with
    | Failed err => send 500 (Json err)
    | Done nrOfRemoved =>
        if nrOfRemoved =? 0 then sendStatus 404 else sendStatus 204
    end)).

(** ** Schema inference *)

(** [_.merge] of lodash, on values without cycles. [merge_value dst
    source] is what the property [object[key]] becomes when it holds
    [dst] and the source has [source] there: plain objects are merged
    key by key and arrays index by index, into the value at hand when it
    is of the same kind and into a fresh [{}] or [[]] otherwise; an
    [undefined] source changes nothing; any other source is assigned. *)
Fixpoint merge_value (dst source : value) : value :=
  match source with
  | VObj fs =>
      VObj ((fix baseMerge (object source : obj) : obj :=
               match source with
               | [] => object
               | (key, src) :: rest =>
                   baseMerge (set object key (merge_value (get object key) src)) rest
               end)
              (match dst with VObj o => o | _ => [] end) fs)
  | VArr items =>
      VArr ((fix each (object source : list value) : list value :=
               match source with
               | [] => object
               | src :: rest =>
                   match object with
                   | [] => merge_value VUndefined src :: each [] rest
                   | v :: object' => merge_value v src :: each object' rest
                   end
               end)
              (match dst with VArr a => a | _ => [] end) items)
  | VUndefined => dst
  | _ => source
  end.

(** [baseMerge(object, source)] on two plain objects. *)
Fixpoint baseMerge (object source : obj) : obj :=
  match source with
  | [] => object
  | (key, src) :: rest =>
      baseMerge (set object key (merge_value (get object key) src)) rest
  end.

(** [baseMerge(object, source)] on two arrays: index by index, the
    array at hand growing when the source is longer. *)
Fixpoint baseMergeArray (object source : list value) : list value :=
  match source with
  | [] => object
  | src :: rest =>
      match object with
      | [] => merge_value VUndefined src :: baseMergeArray [] rest
      | v :: object' => merge_value v src :: baseMergeArray object' rest
      end
  end.

(** [_.merge(object, source1, source2, ...)]. *)
Definition merge (object : obj) (sources : list obj) : obj :=
  fold_left baseMerge sources object.

(** Modelled from the spec: the "inferred value type" of the shape
    [schema.fromObject] returns, as the name of the type of a value. *)
Definition type_name (v : value) : string :=
  match v with
  | VUndefined => "undefined"
  | VNull => "null"
  | VBool _ => "boolean"
  | VNum _ => "number"
  | VStr _ => "string"
  | VDate _ => "date"
  | VId _ => "objectid"
  | VArr _ => "array"
  | VObj _ => "object"
  end.

(** Modelled from the spec: the "field path" entries of that shape for
    the value found at [path]; a plain object gives the entries of its
    fields, each path continued by a dot and the name of the field. *)
Fixpoint shape (path : string) (v : value) : obj :=
  match v with
  | VObj fs =>
      (fix fields (fs : obj) : obj :=
         match fs with
         | [] => []
         | (k, x) :: fs' =>
             shape (String.append path (String.append "." k)) x ++ fields fs'
         end) fs
  | _ => [(path, VStr (type_name v))]
  end.

(** Modelled from the spec: [schema.fromObject], of the module
    [./schema] that is not among the sources. The spec has it convert
    the merged object "into a descriptive shape (a mapping from field
    path to inferred value type)": a field that holds a plain object
    gives the paths of that object after its own name and a dot, any
    other field maps its name to the name of the type of its value. *)
Fixpoint fromObject (o : obj) : obj :=
  match o with
  | [] => []
  | (k, v) :: o' => shape k v ++ fromObject o'
  end.

(** What the stream of documents is folded into: [merged] starts as
    [{}] and each document [doc] makes it [_.merge({}, merged, doc)]. *)
Definition merge_all (cursor : list obj) : obj :=
  fold_left (fun merged doc => merge [] [merged; doc]) cursor [].

(** GET /_collection/:resource *)
Definition get_collection_resource (resource : string) : M outcome :=
  param_resource resource (fun collection =>
    let* r := Collection.count collection in
    match r with
    | Failed err => send 500 (Json err)
    | Done count =>
        let* r' := Collection.find collection [] in
        match r' with
        | Failed err => send 500 (Json err)
        | Done cursor =>
            let merged := merge_all cursor in
            let merged := del merged "_id" in
            send 200 (Json (VObj [("name", VStr collection);
                                  ("count", VNum count);
                                  ("schema", VObj (fromObject merged))]))
        end
    end).

(** ** Vocabulary of the statements *)

Definition master : string := "refs/heads/master".

(** The record insert alone: the log gains one entry and the build queue
    is as it was. *)
Definition recorded_only (body : obj) (w w' : world) : Prop :=
  trace w' = trace w ++ [OpInsert "_hook" body] /\
  docs_of w' "buildqueue" = docs_of w "buildqueue".

(** An empty store whose calls all succeed. *)
Definition w0 : world := World ∅ [] 0 0 [].

(** A push to master, as GitHub sends it. *)
Definition master_push : obj :=
  [("ref", VStr master);
   ("repository",
    VObj [("full_name", VStr "octo/site");
          ("name", VStr "site");
          ("clone_url", VStr "https://github.com/octo/site.git")]);
   ("head_commit", VObj [("id", VStr "0a1b2c")]);
   ("pusher", VObj [("name", VStr "octo")])].

(** A payload that names master and nothing else. *)
Definition bare_master_push : obj := [("ref", VStr master)].

(** A store that refuses its next call. *)
Definition w_down : world := World ∅ [Some (VStr "ECONNREFUSED")] 0 0 [].

(** The identifiers [new mongodb.ObjectID] takes: 12 bytes, or 24
    hexadecimal digits. *)
Definition valid_id (id : string) : Prop :=
  String.length id = 12%nat \/
  (String.length id = 24%nat /\ all_hex id = true).

(** The body of the 400 of a malformed identifier. *)
Definition invalid_id : response :=
  Response 400 (Json (VObj [("error", VBool true);
                            ("message", VStr invalid_id_message)])).

(** A well-formed identifier in its hexadecimal form, and a malformed
    one. *)
Definition hex_id : string := "507f1f77bcf86cd799439011".
Definition bad_id : string := "nope".

(** The world after a store call that changed no collection. *)
Definition called (o : op) (w : world) : world :=
  World (colls w) (tail (faults w)) (clock w) (pk w) (trace w ++ [o]).

(** The world after a store call that left [ds] in collection [c]. *)
Definition stored (o : op) (c : string) (ds : list obj) (w : world) : world :=
  World (<[c := ds]> (colls w)) (tail (faults w)) (clock w) (pk w)
        (trace w ++ [o]).

(** The identifier [hex_id] stands for, a document that has it, and a
    store that holds this document in [widgets]. *)
Definition hex_oid : string := createFromHexString hex_id.

Definition widget : obj := [("_id", VId hex_oid); ("name", VStr "foo")].

Definition w_widgets : world :=
  World {[ "widgets" := [widget] ]} [] 1000 0 [].

(** [req.parentField] of a nested route. *)
Definition parentField_of (mainResource : string) : string :=
  String.append (camelize mainResource) "Id".

(** Two issues, one of the parent [hex_oid] and one of another, and a
    store that holds them. *)
Definition issue_a : obj :=
  [("_id", VId "aaaaaaaaaaaa"); ("title", VStr "crash"); ("reposId", VId hex_oid)].

Definition issue_b : obj :=
  [("_id", VId "bbbbbbbbbbbb"); ("title", VStr "typo");
   ("reposId", VId "cccccccccccc")].

Definition w_issues : world :=
  World {[ "issues" := [issue_a; issue_b] ]} [] 1000 0 [].

(** The values [_.merge] assigns as they are: neither a plain object,
    nor an array, nor [undefined]. *)
Definition is_scalar (v : value) : bool :=
  match v with
  | VNull | VBool _ | VNum _ | VStr _ | VDate _ | VId _ => true
  | VUndefined | VArr _ | VObj _ => false
  end.

(** The plain object a value is merged into: itself when it is one, a
    fresh [{}] otherwise. *)
Definition as_object (v : value) : obj :=
  match v with
  | VObj o => o
  | _ => []
  end.

(** Two documents of one collection, in the order of their insertion. *)
Definition doc_a : obj := [("_id", VId "aaaaaaaaaaaa"); ("a", VNum 1)].

Definition doc_b : obj :=
  [("_id", VId "bbbbbbbbbbbb"); ("a", VStr "x"); ("b", VNum 2)].

(** The array a value is merged into: itself when it is one, a fresh
    [[]] otherwise. *)
Definition as_array (v : value) : list value :=
  match v with
  | VArr a => a
  | _ => []
  end.

(** Two documents with an array under the same key, the later one
    shorter. *)
Definition tags_a : obj := [("tags", VArr [VNum 1; VNum 2; VNum 3])].

Definition tags_b : obj := [("tags", VArr [VNum 9])].

(** ** GET /_collection *)

Definition dbName : string := "inhouse".

Module Driver.

(** What [db.collectionNames] reports for a collection: an object whose
    [name] is the name of the collection after the name of the
    database and a dot. *)
Record entry : Type := Entry { name : string }.

End Driver.

(** [s.indexOf(sub)]: the first position of [sub] in [s], [-1] when
    there is none. *)
Definition indexOf (s sub : string) : Z :=
  match String.index 0 sub s with
  | Some n => Z.of_nat n
  | None => -1
  end.

(** The rest of [s] after the prefix [p], when [s] starts with [p]. *)
Fixpoint after_prefix (p s : string) : option string :=
  match p, s with
  | EmptyString, _ => Some s
  | String a p', String b s' => if Ascii.eqb a b then after_prefix p' s' else None
  | String _ _, EmptyString => None
  end.

(** [name.replace(dbRegExp, '')] with [dbRegExp] the anchored
    [^inhouse\.]: the database prefix is dropped when the name has it. *)
Definition strip_dbName (name : string) : string :=
  match after_prefix (String.append dbName ".") name with
  | Some rest => rest
  | None => name
  end.

(** The callback of the [reduce]: the name is pushed unless it has
    [system.] in it or starts with an underscore. *)
Definition push_visible (collections : list string) (collection : Driver.entry)
  : list string :=
  let name := strip_dbName (Driver.name collection) in
  if (indexOf name "system." <? 0) && negb (indexOf name "_" =? 0)
  then collections ++ [name]
  else collections.

(** GET /_collection; [collectionNames] is the driver's
    [db.collectionNames] with its callback's [(err, collections)]. *)
Definition get_collection (collectionNames : M (reply (list Driver.entry)))
  : M outcome :=
  let* r := collectionNames in
  match r with
  | Failed err => send 500 (Json err)
  | Done collections =>
      let collections := fold_left push_visible collections [] in
      send 200 (Json (VArr (map VStr collections)))
  end.

(** ** The body parser *)

(** [app.use(bodyParser.json())] (index.js:85), which runs before every
    resource route. The parser of body-parser starts from
    [req.body = req.body || {}] and then parses a JSON body when the
    request has one: [sent] is the JSON document of the request, [None]
    when it carries no body, and the result is what the handlers find
    in [req.body]. *)
Definition bodyParser_json (sent : option obj) : option obj :=
  Some (match sent with
        | Some document => document
        | None => []
        end).

(** ** Vocabulary of the further statements *)

(** The strings of ASCII characters. *)
Fixpoint ascii_only (s : string) : bool :=
  match s with
  | EmptyString => true
  | String c s' => (nat_of_ascii c <? 128)%nat && ascii_only s'
  end.


(** The collection a store call is made on. *)
Definition op_collection (o : op) : string :=
  match o with
  | OpCount c | OpFind c _ | OpFindOne c _ | OpInsert c _
  | OpUpdate c _ _ | OpRemove c _ => c
  end.

(** From [w] to [w'] every store call was made on [c] and no other
    collection changed. *)
Definition only_touches (c : string) (w w' : world) : Prop :=
  (exists ops,
     trace w' = trace w ++ ops /\
     List.Forall (fun o => op_collection o = c) ops) /\
  forall c', c' <> c -> docs_of w' c' = docs_of w c'.

(** The characters of a string, none of which [camelize] would drop. *)
Fixpoint no_separator (s : string) : bool :=
  match s with
  | EmptyString => true
  | String c s' => negb (is_separator c) && no_separator s'
  end.

(** The name is listed by GET /_collection. *)
Definition visible (name : string) : bool :=
  (indexOf name "system." <? 0) && negb (indexOf name "_" =? 0).

(** The identifiers of the documents of a collection. *)
Definition ids_of (w : world) (c : string) : list value :=
  map (fun d => get d "_id") (docs_of w c).

(** The identifier the driver gives to the next document without one. *)
Definition next_pk (w : world) : string := be_bytes 12 (N.of_nat (pk w)).

(** What the driver reports for the collections of a database that holds
    [widgets], the webhook records and an index collection, with one
    name reported without the database prefix. *)
Definition reported : list Driver.entry :=
  [Driver.Entry "inhouse.widgets"; Driver.Entry "inhouse._hook";
   Driver.Entry "inhouse.system.indexes"; Driver.Entry "audit";
   Driver.Entry "inhouse.buildqueue"].

(** A store that takes its next call and refuses the one after. *)
Definition w_queue_down : world :=
  World ∅ [None; Some (VStr "E11000")] 0 0 [].

(** The store calls the webhook route may make. *)
Definition hook_insert (o : op) : Prop :=
  exists doc, o = OpInsert "_hook" doc \/ o = OpInsert "buildqueue" doc.

(** * Properties *)

(** ** Objects *)

Lemma get_absent (o : obj) (k : string) :
  ~ In k (keys o) -> get o k = VUndefined.
Proof.
  induction o as [|[k' v] o IH]; simpl; [reflexivity|].
  intros H. destruct (String.eqb_spec k' k) as [->|_].
  - exfalso. apply H. now left.
  - apply IH. intros Hin. apply H. now right.
Qed.

Lemma get_set_same (o : obj) (k : string) (v : value) : get (set o k v) k = v.
Proof.
  induction o as [|[k' v'] o IH]; simpl.
  - now rewrite String.eqb_refl.
  - destruct (String.eqb k' k) eqn:E; simpl; now rewrite E.
Qed.

Lemma get_set_other (o : obj) (k k' : string) (v : value) :
  k <> k' -> get (set o k v) k' = get o k'.
Proof.
  intros Hne. induction o as [|[k1 v1] o IH]; simpl.
  - destruct (String.eqb_spec k k'); [contradiction|reflexivity].
  - destruct (String.eqb_spec k1 k) as [->|Hk]; simpl.
    + destruct (String.eqb_spec k k'); [contradiction|reflexivity].
    + now rewrite IH.
Qed.

Lemma strict_eq_str_true (v : value) (s : string) :
  strict_eq_str v s = true <-> v = VStr s.
Proof.
  destruct v; simpl; split; try discriminate.
  - intros H. apply String.eqb_eq in H. now subst.
  - intros [= ->]. apply String.eqb_refl.
Qed.

Lemma strict_eq_str_false (v : value) (s : string) :
  v <> VStr s -> strict_eq_str v s = false.
Proof.
  intros H. destruct (strict_eq_str v s) eqn:E; [|reflexivity].
  apply strict_eq_str_true in E. contradiction.
Qed.

(** Run a handler to its response and read the fields of the world it
    leaves. *)
Ltac answer :=
  cbn [Z.eqb Pos.eqb]; unfold sendStatus, send, ret;
  cbn [fst snd trace colls faults clock pk Z.eqb Pos.eqb].

(** ** The webhook route *)

(** What a successful insert leaves behind. *)
Lemma insert_ok (c : string) (doc : obj) (w : world) :
  fault_at w 0 = None ->
  exists doc',
    Collection.insert c doc w =
      (Done doc',
       World (<[c := docs_of w c ++ [doc']]> (colls w)) (tail (faults w))
             (clock w) (if nullish (get doc "_id") then S (pk w) else pk w)
             (trace w ++ [OpInsert c doc])) /\
    doc' = (if nullish (get doc "_id")
            then set doc "_id" (VId (be_bytes 12 (N.of_nat (pk w))))
            else doc).
Proof.
  intros H. unfold Collection.insert, bind, call. simpl. rewrite H.
  destruct (nullish (get doc "_id")); simpl; eexists; split; reflexivity.
Qed.

Lemma insert_failed (c : string) (doc : obj) (w : world) (e : value) :
  fault_at w 0 = Some e ->
  Collection.insert c doc w =
    (Failed e,
     World (colls w) (tail (faults w)) (clock w) (pk w)
           (trace w ++ [OpInsert c doc])).
Proof.
  intros H. unfold Collection.insert, bind, call. simpl. now rewrite H.
Qed.

Lemma member_some (v : value) (k : string) :
  nullish v = false -> exists x, member v k = Some x.
Proof.
  destruct v; simpl; intros H; try discriminate H; eauto.
Qed.

Lemma truthy_not_nullish (v : value) : truthy v = true -> nullish v = false.
Proof. destruct v; simpl; intros H; try discriminate H; reflexivity. Qed.

(** The build job of a payload whose [repository] can be read. *)
Lemma build_job_some (endpoint : option string) (body : obj) (w : world) :
  nullish (get body "repository") = false ->
  exists build,
    build_job endpoint body w = (Some build, w) /\
    get build "buildAt" = VNull /\
    get build "nrOfAttempts" = VNum 0 /\
    get build "_id" = VUndefined /\
    get build "commit" =
      (if truthy (get body "head_commit")
       then default VUndefined (member (get body "head_commit") "id")
       else get body "head_commit").
Proof.
  intros H. unfold build_job.
  destruct (member_some _ "full_name" H) as [x1 ->].
  destruct (member_some _ "name" H) as [x2 ->].
  destruct (member_some _ "clone_url" H) as [x3 ->].
  destruct (truthy (get body "head_commit")) eqn:T.
  - destruct (member_some _ "id" (truthy_not_nullish _ T)) as [x4 ->].
    eexists. repeat split; reflexivity.
  - eexists. repeat split; reflexivity.
Qed.

Lemma build_job_none (endpoint : option string) (body : obj) (w : world) :
  nullish (get body "repository") = true ->
  build_job endpoint body w = (None, w).
Proof.
  intros H. unfold build_job.
  destruct (get body "repository"); try discriminate H; reflexivity.
Qed.

(** The handler once the record insert has succeeded. *)
Lemma post_hook_recorded (endpoint : option string) (body : obj) (w : world) :
  fault_at w 0 = None ->
  exists w1,
    trace w1 = trace w ++ [OpInsert "_hook" body] /\
    docs_of w1 "buildqueue" = docs_of w "buildqueue" /\
    (forall n, fault_at w1 n = fault_at w (S n)) /\
    post_hook endpoint body w =
      (if negb (truthy (get body "ref")) then sendStatus 204
       else if negb (strict_eq_str (get body "ref") master) then sendStatus 204
       else
         let* b := build_job endpoint body in
         match b with
         | None => ret (Threw "TypeError")
         | Some build =>
             let* r' := Collection.insert "buildqueue" build in
             match r' with
             | Failed err => send 500 (Json err)
             | Done _ => sendStatus 201
             end
         end) w1.
Proof.
  intros H. destruct (insert_ok "_hook" body w H) as (doc' & E & _).
  eexists. split; [|split; [|split]]; cycle 3.
  - unfold post_hook, bind at 1. rewrite E. cbn [fst snd]. reflexivity.
  - reflexivity.
  - unfold docs_of. cbn [colls]. now rewrite lookup_insert_ne.
  - intros n. unfold fault_at. cbn [faults].
    destruct (faults w); destruct n; reflexivity.
Qed.

(** C1, as the handler has it: once the payload is recorded, a payload
    without [ref] and a payload whose [ref] is not [refs/heads/master]
    get 204 and no build job; a payload whose [ref] is
    [refs/heads/master] and whose [repository] is neither missing nor
    null gets exactly one insert into the build queue, of a job with
    [buildAt] null and [nrOfAttempts] 0, and 201 when that insert
    succeeds, the job then being the one new document of the queue. *)
Theorem hook_ref_filter (endpoint : option string) (body : obj) (w : world) :
  fault_at w 0 = None ->
  let out := fst (post_hook endpoint body w) in
  let w' := snd (post_hook endpoint body w) in
  (~ In "ref" (keys body) ->
     out = Responded (Response 204 NoBody) /\ recorded_only body w w') /\
  (In "ref" (keys body) -> get body "ref" <> VStr master ->
     out = Responded (Response 204 NoBody) /\ recorded_only body w w') /\
  (get body "ref" = VStr master ->
   nullish (get body "repository") = false ->
     exists build,
       trace w' = trace w ++ [OpInsert "_hook" body; OpInsert "buildqueue" build] /\
       get build "buildAt" = VNull /\
       get build "nrOfAttempts" = VNum 0 /\
       (fault_at w 1 = None ->
          out = Responded (Response 201 (Text "Created")) /\
          exists job,
            docs_of w' "buildqueue" = docs_of w "buildqueue" ++ [job] /\
            get job "buildAt" = VNull /\
            get job "nrOfAttempts" = VNum 0)).
Proof.
  intros H out w'. subst out w'.
  destruct (post_hook_recorded endpoint body w H) as (w1 & Ht & Hd & Hf & ->).
  split; [|split].
  - intros Hno. rewrite (get_absent _ _ Hno). simpl. split; [reflexivity|].
    split; assumption.
  - intros _ Hne. destruct (truthy (get body "ref")); simpl.
    + rewrite (strict_eq_str_false _ _ Hne). simpl. split; [reflexivity|].
      split; assumption.
    + split; [reflexivity|]. split; assumption.
  - intros Href Hrepo. rewrite Href. cbn [truthy strict_eq_str negb].
    change (String.eqb master "") with false.
    change (String.eqb master master) with true. cbn [negb].
    destruct (build_job_some endpoint body w1 Hrepo)
      as (build & Eb & HbA & HbN & HbI & _).
    exists build. unfold bind. rewrite Eb. cbn [fst snd].
    destruct (fault_at w1 0) as [e|] eqn:F1.
    + rewrite (insert_failed _ _ _ _ F1). cbn [fst snd trace].
      rewrite Ht, <- app_assoc. repeat split; try assumption.
      all: rewrite Hf in F1; congruence.
    + destruct (insert_ok "buildqueue" build w1 F1) as (job & E & Ej).
      rewrite E. cbn [fst snd trace].
      rewrite Ht, <- app_assoc. repeat split; try assumption.
      exists job. rewrite HbI in Ej. cbn [nullish] in Ej. split.
      * unfold sendStatus, send, ret, docs_of at 1. cbn [snd colls].
        rewrite lookup_insert_eq. cbn. now rewrite Hd.
      * subst job. rewrite !get_set_other by discriminate. now split.
Qed.

Lemma hook_ref_filter_witness :
  fault_at w0 0 = None /\
  fst (post_hook (Some "site") master_push w0) =
    Responded (Response 201 (Text "Created")).
Proof.
  split; [reflexivity|].
  destruct (hook_ref_filter (Some "site") master_push w0 eq_refl) as (_ & _ & H).
  destruct (H eq_refl eq_refl) as (build & _ & _ & _ & H').
  exact (proj1 (H' eq_refl)).
Defined.

(** C1 as stated fails on a payload that names master and has no
    [repository]: the record insert succeeds, and the handler throws
    with no build job inserted and no 201. *)
Lemma hook_master_push_without_repository :
  fault_at w0 0 = None /\
  get bare_master_push "ref" = VStr master /\
  fst (post_hook None bare_master_push w0) = Threw "TypeError" /\
  trace (snd (post_hook None bare_master_push w0)) =
    [OpInsert "_hook" bare_master_push] /\
  docs_of (snd (post_hook None bare_master_push w0)) "buildqueue" = [] /\
  ~ (exists build,
       In (OpInsert "buildqueue" build)
          (trace (snd (post_hook None bare_master_push w0)))).
Proof.
  repeat split; try reflexivity.
  intros [build [H|[]]]. discriminate H.
Qed.

(** C2: whatever the payload, the first store call of the handler is the
    insert of the raw payload into [_hook]; when the store reports an
    error for it the response is 500 with that error, no other store
    call is made and no collection changes; when it succeeds the
    payload, with its identifier, is the new last record of [_hook]. *)
Theorem hook_records_first (endpoint : option string) (body : obj) (w : world) :
  let out := fst (post_hook endpoint body w) in
  let w' := snd (post_hook endpoint body w) in
  (exists rest, trace w' = trace w ++ OpInsert "_hook" body :: rest) /\
  (forall e, fault_at w 0 = Some e ->
     out = Responded (Response 500 (Json e)) /\
     trace w' = trace w ++ [OpInsert "_hook" body] /\
     colls w' = colls w) /\
  (fault_at w 0 = None ->
     exists record,
       docs_of w' "_hook" = docs_of w "_hook" ++ [record] /\
       forall k, k <> "_id" -> get record k = get body k).
Proof.
  cbv zeta.
  destruct (fault_at w 0) as [e|] eqn:F.
  - unfold post_hook, bind. rewrite (insert_failed _ _ _ _ F). cbn.
    split; [now exists []|]. split; [|discriminate].
    intros e' [= <-]. repeat split.
  - destruct (insert_ok "_hook" body w F) as (record & E & Er).
    assert (Hrec : forall k, k <> "_id" -> get record k = get body k).
    { intros k Hk. subst record. destruct (nullish _); [|reflexivity].
      apply get_set_other. congruence. }
    unfold post_hook, bind. rewrite E. cbn [fst snd].
    set (w1 := World _ _ _ _ _).
    assert (Hd : docs_of w1 "_hook" = docs_of w "_hook" ++ [record]).
    { unfold docs_of at 1. cbn. now rewrite lookup_insert_eq. }
    assert (Ht : trace w1 = trace w ++ [OpInsert "_hook" body]) by reflexivity.
    clearbody w1. clear E. unfold docs_of in *.
    destruct (negb (truthy (get body "ref"))).
    { answer. rewrite Ht, Hd. split; [now exists []|]. split; [discriminate|].
      intros _. now exists record. }
    destruct (negb (strict_eq_str (get body "ref") "refs/heads/master")).
    { answer. rewrite Ht, Hd. split; [now exists []|]. split; [discriminate|].
      intros _. now exists record. }
    destruct (nullish (get body "repository")) eqn:R.
    { rewrite (build_job_none _ _ _ R). answer. rewrite Ht, Hd.
      split; [now exists []|]. split; [discriminate|].
      intros _. now exists record. }
    destruct (build_job_some endpoint body w1 R) as (build & -> & _).
    cbn [fst snd].
    destruct (fault_at w1 0) as [e|] eqn:F1.
    + rewrite (insert_failed _ _ _ _ F1). answer. rewrite Ht, Hd, <- app_assoc.
      split; [now eexists|]. split; [discriminate|].
      intros _. now exists record.
    + destruct (insert_ok "buildqueue" build w1 F1) as (job & -> & _).
      answer. rewrite Ht, <- app_assoc.
      split; [now eexists|]. split; [discriminate|].
      intros _. exists record. split; [|assumption].
      rewrite lookup_insert_ne by discriminate. exact Hd.
Qed.

Lemma hook_records_first_witness :
  fault_at w_down 0 = Some (VStr "ECONNREFUSED") /\
  fst (post_hook None master_push w_down) =
    Responded (Response 500 (Json (VStr "ECONNREFUSED"))) /\
  trace (snd (post_hook None master_push w_down)) =
    [OpInsert "_hook" master_push].
Proof.
  split; [reflexivity|].
  destruct (hook_records_first None master_push w_down) as (_ & H & _).
  destruct (H (VStr "ECONNREFUSED") eq_refl) as (Hout & Ht & _).
  split; [exact Hout|exact Ht].
Defined.

Lemma build_job_object (endpoint : option string) (body r : obj) (w : world) :
  get body "repository" = VObj r ->
  exists build,
    build_job endpoint body w = (Some build, w) /\
    get build "fullName" = get r "full_name" /\
    get build "name" = get r "name" /\
    get build "repo" = get r "clone_url" /\
    get build "commit" =
      (if truthy (get body "head_commit")
       then default VUndefined (member (get body "head_commit") "id")
       else get body "head_commit").
Proof.
  intros R. unfold build_job. rewrite R. cbn [member].
  destruct (truthy (get body "head_commit")) eqn:T.
  - destruct (member_some _ "id" (truthy_not_nullish _ T)) as [x ->].
    eexists. repeat split; reflexivity.
  - eexists. repeat split; reflexivity.
Qed.

(** C10: for a payload that names master and is recorded, the build job
    reads its three [repository] fields unguarded. Without a
    [repository] the handler throws: no response, and nothing but the
    record insert. With an object there the job takes [full_name],
    [name] and [clone_url] from it, [commit] is [undefined] when
    [head_commit] is missing and [head_commit.id] when it is an object,
    and the handler answers 201 or 500. *)
Theorem hook_needs_repository (endpoint : option string) (body : obj) (w : world) :
  fault_at w 0 = None ->
  get body "ref" = VStr master ->
  let out := fst (post_hook endpoint body w) in
  let w' := snd (post_hook endpoint body w) in
  (~ In "repository" (keys body) ->
     out = Threw "TypeError" /\ recorded_only body w w') /\
  (forall r, get body "repository" = VObj r ->
     exists build,
       trace w' = trace w ++ [OpInsert "_hook" body; OpInsert "buildqueue" build] /\
       get build "fullName" = get r "full_name" /\
       get build "name" = get r "name" /\
       get build "repo" = get r "clone_url" /\
       (~ In "head_commit" (keys body) -> get build "commit" = VUndefined) /\
       (forall h, get body "head_commit" = VObj h ->
          get build "commit" = get h "id") /\
       exists code content,
         out = Responded (Response code content) /\ (code = 201 \/ code = 500)).
Proof.
  intros H Href. cbv zeta.
  destruct (post_hook_recorded endpoint body w H) as (w1 & Ht & Hd & Hf & ->).
  rewrite Href. cbn [truthy strict_eq_str negb].
  change (String.eqb master "") with false.
  change (String.eqb master master) with true. cbn [negb].
  split.
  - intros Hno. unfold bind. rewrite build_job_none.
    + answer. repeat split; assumption.
    + now rewrite (get_absent _ _ Hno).
  - intros r R.
    destruct (build_job_object endpoint body r w1 R)
      as (build & Eb & Hfn & Hn & Hr & Hc).
    exists build. unfold bind. rewrite Eb. cbn [fst snd].
    assert (Hc1 : ~ In "head_commit" (keys body) -> get build "commit" = VUndefined).
    { intros Hno. rewrite Hc, (get_absent _ _ Hno). reflexivity. }
    assert (Hc2 : forall h, get body "head_commit" = VObj h ->
                            get build "commit" = get h "id").
    { intros h Hh. rewrite Hc, Hh. reflexivity. }
    destruct (fault_at w1 0) as [e|] eqn:F1.
    + rewrite (insert_failed _ _ _ _ F1). answer.
      rewrite Ht, <- app_assoc. repeat split; try assumption.
      exists 500, (Json e). split; [reflexivity|now right].
    + destruct (insert_ok "buildqueue" build w1 F1) as (job & -> & _). answer.
      rewrite Ht, <- app_assoc. repeat split; try assumption.
      exists 201, (Text "Created"). split; [reflexivity|now left].
Qed.

Lemma hook_needs_repository_witness :
  fault_at w0 0 = None /\
  get bare_master_push "ref" = VStr master /\
  fst (post_hook None bare_master_push w0) = Threw "TypeError".
Proof.
  split; [reflexivity|]. split; [reflexivity|].
  refine (proj1 (proj1 (hook_needs_repository None bare_master_push w0
                          eq_refl eq_refl) _)).
  simpl. intros [H|[]]. discriminate H.
Defined.

(** ** Identifiers *)

Lemma createFromHexString_length (n : nat) (s : string) :
  String.length s = (2 * n)%nat -> String.length (createFromHexString s) = n.
Proof.
  revert s. induction n as [|n IH]; intros s H.
  - destruct s; [reflexivity|discriminate H].
  - destruct s as [|a [|b s]]; try (simpl in H; lia).
    simpl. f_equal. apply IH. simpl in H. lia.
Qed.

Lemma ObjectID_valid (id : string) :
  valid_id id ->
  exists oid, ObjectID id = Some oid /\ String.length oid = 12%nat.
Proof.
  unfold ObjectID. intros [H|[H Hx]]; rewrite H; simpl.
  - now exists id.
  - rewrite Hx. eexists. split; [reflexivity|].
    now apply createFromHexString_length.
Qed.

Lemma ObjectID_invalid (id : string) : ~ valid_id id -> ObjectID id = None.
Proof.
  unfold valid_id, ObjectID. intros H.
  destruct (Nat.eqb_spec (String.length id) 12) as [E|_]; [tauto|].
  destruct (Nat.eqb_spec (String.length id) 24) as [E|_]; [|reflexivity].
  simpl. destruct (all_hex id); [tauto|reflexivity].
Qed.

(** C4: an identifier that is neither 12 bytes nor 24 hexadecimal digits
    is answered 400 with the message, by the parameter callback, which
    leaves the world untouched and does not call [next]; so it is at
    each route with an [:id], whose handler and store call are never
    reached. A valid identifier becomes 12 bytes handed to [next]. *)
Theorem param_id_validates (id : string) (w : world) :
  (~ valid_id id ->
     (forall next, param_id id next w = (Responded invalid_id, w)) /\
     (forall resource,
        get_resource_id resource id w = (Responded invalid_id, w)) /\
     (forall mainResource resource query,
        get_nested mainResource id resource query w = (Responded invalid_id, w)) /\
     (forall mainResource resource body,
        post_nested mainResource id resource body w = (Responded invalid_id, w)) /\
     (forall resource body,
        put_resource_id resource id body w = (Responded invalid_id, w)) /\
     (forall resource,
        delete_resource_id resource id w = (Responded invalid_id, w))) /\
  (valid_id id ->
     exists oid,
       ObjectID id = Some oid /\ String.length oid = 12%nat /\
       forall next, param_id id next w = next oid w).
Proof.
  split.
  - intros H. apply ObjectID_invalid in H.
    unfold get_resource_id, get_nested, post_nested, put_resource_id,
      delete_resource_id, param_resource, param_mainResource, param_id.
    rewrite H. repeat split.
  - intros H. destruct (ObjectID_valid id H) as (oid & E & L).
    exists oid. unfold param_id. rewrite E. repeat split. exact L.
Qed.

Lemma bad_id_invalid : ~ valid_id bad_id.
Proof. unfold valid_id. simpl. intros [H|[H _]]; discriminate H. Qed.

Lemma hex_id_valid : valid_id hex_id.
Proof. right. split; reflexivity. Qed.

Lemma param_id_validates_witness :
  get_resource_id "widgets" bad_id w0 = (Responded invalid_id, w0) /\
  exists oid, ObjectID hex_id = Some oid /\ String.length oid = 12%nat.
Proof.
  split.
  - apply (proj1 (param_id_validates bad_id w0) bad_id_invalid).
  - destruct (proj2 (param_id_validates hex_id w0) hex_id_valid)
      as (oid & E & L & _).
    exists oid. split; assumption.
Defined.

(** ** Writes without a body *)

(** The guard [if (!req.body)] of the three write handlers: with
    [req.body] undefined they answer 400 and leave the world as it was. *)
Lemma guard_rejects_undefined_body (w : world) :
  (forall resource,
     post_resource resource None w = (Responded (Response 400 NoBody), w)) /\
  (forall mainResource id resource,
     exists content,
       post_nested mainResource id resource None w =
         (Responded (Response 400 content), w)) /\
  (forall resource id,
     exists content,
       put_resource_id resource id None w =
         (Responded (Response 400 content), w)).
Proof.
  split; [reflexivity|]. split; intros.
  - unfold post_nested, param_mainResource, param_id, param_resource.
    destruct (ObjectID id); eexists; reflexivity.
  - unfold put_resource_id, param_resource, param_id.
    destruct (ObjectID id); eexists; reflexivity.
Qed.

(** ** The store *)

Lemma value_eqb_id (v : value) (oid : string) :
  value_eqb v (VId oid) = true <-> v = VId oid.
Proof.
  destruct v; simpl; split; try discriminate.
  - intros H. apply String.eqb_eq in H. now subst.
  - intros [= ->]. apply String.eqb_refl.
Qed.

Lemma matches_id (oid : string) (d : obj) :
  matches [("_id", VId oid)] d = true <-> get d "_id" = VId oid.
Proof.
  unfold matches. simpl. rewrite andb_true_r. apply value_eqb_id.
Qed.

Lemma matches_field (filter d : obj) (k : string) (v : value) :
  In (k, v) filter -> matches filter d = true -> value_eqb (get d k) v = true.
Proof.
  unfold matches. intros Hin H.
  rewrite forallb_forall in H. exact (H (k, v) Hin).
Qed.

(** [remove_first] takes out no document, none matching, or exactly the
    first that matches. *)
Lemma remove_first_spec (sel : obj) (ds : list obj) :
  (snd (remove_first sel ds) = 0 /\ fst (remove_first sel ds) = ds /\
   Forall (fun d => matches sel d = false) ds) \/
  (snd (remove_first sel ds) = 1 /\
   exists before d after,
     ds = before ++ d :: after /\
     fst (remove_first sel ds) = before ++ after /\
     matches sel d = true /\
     Forall (fun d => matches sel d = false) before).
Proof.
  induction ds as [|d ds IH]; simpl.
  - left. repeat split. constructor.
  - destruct (matches sel d) eqn:E; simpl.
    + right. split; [reflexivity|]. exists [], d, ds. repeat split; auto.
    + destruct IH as [(Hn & Hd & Hall)|(Hn & b & x & a & Hds & Hd & Hx & Hall)].
      * left. rewrite Hn, Hd. repeat split. now constructor.
      * right. split; [assumption|]. exists (d :: b), x, a.
        rewrite Hd, Hds. repeat split; auto.
Qed.

(** [replace_first] keeps every identifier where it is. *)
Lemma replace_first_ids (sel doc : obj) (ds : list obj) :
  map (fun d => get d "_id") (replace_first sel doc ds) =
  map (fun d => get d "_id") ds.
Proof.
  induction ds as [|d ds IH]; simpl; [reflexivity|].
  destruct (matches sel d); simpl; [reflexivity|]. now rewrite IH.
Qed.

Lemma replace_first_spec (sel doc : obj) (ds : list obj) :
  (replace_first sel doc ds = ds /\
   Forall (fun d => matches sel d = false) ds) \/
  (exists before d after,
     ds = before ++ d :: after /\
     replace_first sel doc ds =
       before ++ (("_id", get d "_id") :: del doc "_id") :: after /\
     matches sel d = true /\
     Forall (fun d => matches sel d = false) before).
Proof.
  induction ds as [|d ds IH]; simpl.
  - left. split; [reflexivity|constructor].
  - destruct (matches sel d) eqn:E.
    + right. exists [], d, ds. repeat split; auto.
    + destruct IH as [(Hd & Hall)|(b & x & a & Hds & Hd & Hx & Hall)].
      * left. rewrite Hd. split; [reflexivity|now constructor].
      * right. exists (d :: b), x, a. rewrite Hd, Hds. repeat split; auto.
Qed.

Lemma Forall_not_id (oid : string) (ds : list obj) :
  Forall (fun d => matches [("_id", VId oid)] d = false) ds ->
  Forall (fun d => get d "_id" <> VId oid) ds.
Proof.
  intros H. eapply List.Forall_impl; [|exact H].
  intros d Hd E. apply (proj2 (matches_id oid d)) in E. congruence.
Qed.

Lemma docs_of_stored (o : op) (c : string) (ds : list obj) (w : world) :
  docs_of (stored o c ds w) c = ds.
Proof. unfold docs_of, stored. cbn. now rewrite lookup_insert_eq. Qed.

Lemma remove_ok (c : string) (sel : obj) (w : world) :
  fault_at w 0 = None ->
  Collection.remove c sel w =
    (Done (snd (remove_first sel (docs_of w c))),
     stored (OpRemove c sel) c (fst (remove_first sel (docs_of w c))) w).
Proof.
  intros H. unfold Collection.remove, bind, call. cbn [fst snd]. now rewrite H.
Qed.

Lemma remove_failed (c : string) (sel : obj) (w : world) (e : value) :
  fault_at w 0 = Some e ->
  Collection.remove c sel w = (Failed e, called (OpRemove c sel) w).
Proof.
  intros H. unfold Collection.remove, bind, call. cbn [fst snd]. now rewrite H.
Qed.

Lemma update_ok (c : string) (sel doc : obj) (w : world) :
  fault_at w 0 = None ->
  Collection.update c sel doc w =
    (Done tt,
     stored (OpUpdate c sel doc) c (replace_first sel doc (docs_of w c)) w).
Proof.
  intros H. unfold Collection.update, bind, call. cbn [fst snd]. now rewrite H.
Qed.

Lemma update_failed (c : string) (sel doc : obj) (w : world) (e : value) :
  fault_at w 0 = Some e ->
  Collection.update c sel doc w = (Failed e, called (OpUpdate c sel doc) w).
Proof.
  intros H. unfold Collection.update, bind, call. cbn [fst snd]. now rewrite H.
Qed.

Lemma find_ok (c : string) (filter : obj) (w : world) :
  fault_at w 0 = None ->
  Collection.find c filter w =
    (Done (List.filter (matches filter) (docs_of w c)),
     called (OpFind c filter) w).
Proof.
  intros H. unfold Collection.find, bind, call. cbn [fst snd]. now rewrite H.
Qed.

Lemma find_failed (c : string) (filter : obj) (w : world) (e : value) :
  fault_at w 0 = Some e ->
  Collection.find c filter w = (Failed e, called (OpFind c filter) w).
Proof.
  intros H. unfold Collection.find, bind, call. cbn [fst snd]. now rewrite H.
Qed.

Lemma count_ok (c : string) (w : world) :
  fault_at w 0 = None ->
  Collection.count c w =
    (Done (Z.of_nat (length (docs_of w c))), called (OpCount c) w).
Proof.
  intros H. unfold Collection.count, bind, call. cbn [fst snd]. now rewrite H.
Qed.

(** ** DELETE /:resource/:id *)

(** C7: with a valid identifier the route makes one store call, the
    removal by [_id]. On a store error it answers 500 and the
    collections are as they were. Otherwise either no document has the
    identifier, nothing is removed and the answer is 404, or exactly the
    first document with the identifier is removed and the answer is
    204. *)
Theorem delete_at_most_one (resource id oid : string) (w : world) :
  ObjectID id = Some oid ->
  let c := camelize resource in
  let out := fst (delete_resource_id resource id w) in
  let w' := snd (delete_resource_id resource id w) in
  trace w' = trace w ++ [OpRemove c [("_id", VId oid)]] /\
  (forall e, fault_at w 0 = Some e ->
     out = Responded (Response 500 (Json e)) /\ colls w' = colls w) /\
  (fault_at w 0 = None ->
     (out = Responded (Response 404 (Text "Not Found")) /\
      docs_of w' c = docs_of w c /\
      Forall (fun d => get d "_id" <> VId oid) (docs_of w c)) \/
     (out = Responded (Response 204 NoBody) /\
      exists before d after,
        docs_of w c = before ++ d :: after /\
        docs_of w' c = before ++ after /\
        get d "_id" = VId oid /\
        Forall (fun d => get d "_id" <> VId oid) before)).
Proof.
  intros Hid. cbv zeta.
  unfold delete_resource_id, param_resource, param_id. rewrite Hid.
  unfold bind.
  destruct (fault_at w 0) as [e|] eqn:F.
  - rewrite (remove_failed _ _ _ _ F). answer.
    split; [reflexivity|]. split; [|discriminate].
    intros e' [= <-]. split; reflexivity.
  - rewrite (remove_ok _ _ _ F). cbn [fst snd].
    set (c := camelize resource). set (ds := docs_of w c).
    split; [|split; [discriminate|intros _]].
    + destruct (snd (remove_first [("_id", VId oid)] ds) =? 0); reflexivity.
    + destruct (remove_first_spec [("_id", VId oid)] ds)
        as [(Hn & Hd & Hall)|(Hn & b & x & a & Hds & Hd & Hx & Hall)].
      * left. rewrite Hn. answer. rewrite docs_of_stored, Hd.
        repeat split. now apply Forall_not_id.
      * right. rewrite Hn. answer. split; [reflexivity|].
        exists b, x, a. rewrite docs_of_stored, Hd.
        repeat split; auto. { now apply matches_id. } now apply Forall_not_id.
Qed.

Lemma delete_at_most_one_witness :
  ObjectID hex_id = Some hex_oid /\
  fst (delete_resource_id "widgets" hex_id w_widgets) =
    Responded (Response 204 NoBody) /\
  docs_of (snd (delete_resource_id "widgets" hex_id w_widgets)) "widgets" = [].
Proof.
  split; [reflexivity|].
  destruct (delete_at_most_one "widgets" hex_id hex_oid w_widgets eq_refl)
    as (_ & _ & H).
  destruct (H eq_refl) as [(_ & _ & Hall)|(Hout & _)].
  - exfalso. vm_compute in Hall. inversion Hall as [|? ? Hd _]. now apply Hd.
  - split; [exact Hout|reflexivity].
Defined.

(** ** Objects, continued *)

Lemma keys_del (o : obj) (k : string) : ~ In k (keys (del o k)).
Proof.
  induction o as [|[k' v] o IH]; simpl; [tauto|].
  destruct (String.eqb_spec k' k) as [->|Hk]; [assumption|].
  simpl. intros [H|H]; [contradiction|now apply IH].
Qed.

Lemma keys_set (o : obj) (k x : string) (v : value) :
  In x (keys (set o k v)) <-> x = k \/ In x (keys o).
Proof.
  induction o as [|[k' v'] o IH]; simpl.
  - intuition.
  - destruct (String.eqb_spec k' k) as [->|Hk]; simpl.
    + intuition.
    + rewrite IH. intuition.
Qed.

Lemma get_del_other (o : obj) (k k' : string) :
  k <> k' -> get (del o k) k' = get o k'.
Proof.
  intros Hne. induction o as [|[k1 v1] o IH]; simpl; [reflexivity|].
  destruct (String.eqb_spec k1 k) as [->|Hk]; simpl.
  - destruct (String.eqb_spec k k'); [contradiction|assumption].
  - now rewrite IH.
Qed.

Lemma del_absent (o : obj) (k : string) : ~ In k (keys o) -> del o k = o.
Proof.
  induction o as [|[k' v] o IH]; simpl; [reflexivity|].
  intros H. destruct (String.eqb_spec k' k) as [->|Hk]; [tauto|].
  f_equal. apply IH. tauto.
Qed.

Lemma in_set (o : obj) (k : string) (v : value) : In (k, v) (set o k v).
Proof.
  induction o as [|[k' v'] o IH]; simpl; [now left|].
  destruct (String.eqb_spec k' k) as [->|Hk]; [now left|now right].
Qed.

(** ** PUT /:resource/:id *)

(** C6: with a valid identifier and a body, the document handed to the
    store is the body without [_id] and with [updatedAt] set to the
    clock, its other fields untouched; the one store call is the
    replacement selected by [_id]. On success the answer is 204 without
    a body, every document keeps its identifier, and the first document
    with the identifier, if there is one, has become that identifier
    followed by the fields sent. On a store error the answer is 500 and
    the collections are as they were. *)
Theorem put_replaces (resource id oid : string) (body : obj) (w : world) :
  ObjectID id = Some oid ->
  let c := camelize resource in
  let sel := [("_id", VId oid)] in
  let doc := set (del body "_id") "updatedAt" (VDate (clock w)) in
  let out := fst (put_resource_id resource id (Some body) w) in
  let w' := snd (put_resource_id resource id (Some body) w) in
  ~ In "_id" (keys doc) /\
  get doc "updatedAt" = VDate (clock w) /\
  (forall k, k <> "_id" -> k <> "updatedAt" -> get doc k = get body k) /\
  trace w' = trace w ++ [OpUpdate c sel doc] /\
  (forall e, fault_at w 0 = Some e ->
     out = Responded (Response 500 (Json e)) /\ colls w' = colls w) /\
  (fault_at w 0 = None ->
     out = Responded (Response 204 NoBody) /\
     map (fun d => get d "_id") (docs_of w' c) =
       map (fun d => get d "_id") (docs_of w c) /\
     ((docs_of w' c = docs_of w c /\
       Forall (fun d => get d "_id" <> VId oid) (docs_of w c)) \/
      (exists before d after,
         docs_of w c = before ++ d :: after /\
         get d "_id" = VId oid /\
         docs_of w' c = before ++ (("_id", VId oid) :: doc) :: after))).
Proof.
  intros Hid. cbv zeta.
  set (doc := set (del body "_id") "updatedAt" (VDate (clock w))).
  assert (Hno : ~ In "_id" (keys doc)).
  { unfold doc. rewrite keys_set. intros [H|H]; [discriminate H|].
    exact (keys_del _ _ H). }
  split; [exact Hno|]. split; [apply get_set_same|].
  split.
  { intros k H1 H2. unfold doc.
    rewrite get_set_other by congruence. apply get_del_other. congruence. }
  unfold put_resource_id, param_resource, param_id. rewrite Hid.
  unfold bind, new_Date. cbn [fst snd]. fold doc.
  destruct (fault_at w 0) as [e|] eqn:F.
  - rewrite (update_failed _ _ _ _ _ F). answer.
    split; [reflexivity|]. split; [|discriminate].
    intros e' [= <-]. split; reflexivity.
  - rewrite (update_ok _ _ _ _ F). answer.
    split; [reflexivity|]. split; [discriminate|]. intros _.
    split; [reflexivity|]. rewrite docs_of_stored.
    split; [apply replace_first_ids|].
    destruct (replace_first_spec [("_id", VId oid)] doc
                (docs_of w (camelize resource)))
      as [(Hd & Hall)|(b & x & a & Hds & Hd & Hx & Hall)].
    + left. split; [assumption|now apply Forall_not_id].
    + right. exists b, x, a. apply matches_id in Hx.
      rewrite Hd, Hx, (del_absent _ _ Hno). repeat split; assumption.
Qed.

Lemma put_replaces_witness :
  ObjectID hex_id = Some hex_oid /\
  fst (put_resource_id "widgets" hex_id
         (Some [("_id", VStr "mine"); ("name", VStr "bar")]) w_widgets) =
    Responded (Response 204 NoBody) /\
  docs_of (snd (put_resource_id "widgets" hex_id
                  (Some [("_id", VStr "mine"); ("name", VStr "bar")]) w_widgets))
          "widgets" =
    [[("_id", VId hex_oid); ("name", VStr "bar"); ("updatedAt", VDate 1000)]].
Proof.
  split; [reflexivity|].
  destruct (put_replaces "widgets" hex_id hex_oid
              [("_id", VStr "mine"); ("name", VStr "bar")] w_widgets eq_refl)
    as (_ & _ & _ & _ & _ & H).
  destruct (H eq_refl) as (Hout & _ & _).
  split; [exact Hout|reflexivity].
Defined.

(** ** Nested resources *)

(** A name that ends in [Id] is none of the fields the handlers and the
    driver write. *)
Ltac peel H s :=
  repeat (destruct s as [|? s]; simpl in H;
          [discriminate H | injection H as _ H]);
  try (destruct s; discriminate H).

Lemma parentField_not_createdAt (s : string) : String.append s "Id" <> "createdAt".
Proof. intros H. peel H s. Qed.

Lemma parentField_not_updatedAt (s : string) : String.append s "Id" <> "updatedAt".
Proof. intros H. peel H s. Qed.

Lemma parentField_not_id (s : string) : String.append s "Id" <> "_id".
Proof. intros H. peel H s. Qed.

Example parentField_repos : parentField_of "repos" = "reposId".
Proof. reflexivity. Qed.

Example parentField_build_queue : parentField_of "build-queue" = "buildQueueId".
Proof. reflexivity. Qed.

(** C5: under a parent [mainResource] with a valid identifier, the
    document a nested POST hands to the store is the body with the
    field [camelize(mainResource) + "Id"] set to the parent identifier
    and the two time stamps, and the stored document answered has that
    field too; the filter a nested GET hands to the store is the query
    with the same field set to the parent identifier, its other fields
    untouched, and every document streamed back has the field equal to
    the parent identifier. *)
Theorem nested_linkage (mainResource id oid resource : string) (w : world) :
  ObjectID id = Some oid ->
  let parentField := parentField_of mainResource in
  let c := camelize resource in
  (forall body,
     let doc :=
       set (set (set body parentField (VId oid))
                "createdAt" (VDate (clock w)))
           "updatedAt" (VDate (clock w)) in
     let out := fst (post_nested mainResource id resource (Some body) w) in
     let w' := snd (post_nested mainResource id resource (Some body) w) in
     get doc parentField = VId oid /\
     trace w' = trace w ++ [OpInsert c doc] /\
     (fault_at w 0 = None ->
        exists child,
          out = Responded (Response 200 (Json (VObj child))) /\
          get child parentField = VId oid /\
          docs_of w' c = docs_of w c ++ [child])) /\
  (forall query,
     let filter := set query parentField (VId oid) in
     let out := fst (get_nested mainResource id resource query w) in
     let w' := snd (get_nested mainResource id resource query w) in
     get filter parentField = VId oid /\
     (forall k, k <> parentField -> get filter k = get query k) /\
     trace w' = trace w ++ [OpFind c filter] /\
     (fault_at w 0 = None ->
        exists docs,
          out = Responded (Response 200 (Stream docs)) /\
          docs = List.filter (matches filter) (docs_of w c) /\
          Forall (fun d => get d parentField = VId oid) docs)).
Proof.
  intros Hid. cbv zeta. unfold parentField_of.
  set (pf := String.append (camelize mainResource) "Id").
  assert (H1 : pf <> "createdAt") by apply parentField_not_createdAt.
  assert (H2 : pf <> "updatedAt") by apply parentField_not_updatedAt.
  assert (H3 : pf <> "_id") by apply parentField_not_id.
  split.
  - intros body.
    unfold post_nested, param_mainResource, param_id, param_resource.
    rewrite Hid. fold pf. unfold bind, new_Date. cbn [fst snd].
    rewrite get_set_same.
    set (doc := set (set (set body pf (VId oid)) "createdAt" (VDate (clock w)))
                    "updatedAt" (VDate (clock w))).
    assert (Hdoc : get doc pf = VId oid).
    { unfold doc. rewrite !get_set_other by congruence. apply get_set_same. }
    split; [exact Hdoc|].
    destruct (fault_at w 0) as [e|] eqn:F.
    + rewrite (insert_failed _ _ _ _ F). answer.
      split; [reflexivity|discriminate].
    + destruct (insert_ok (camelize resource) doc w F) as (child & -> & Ec).
      answer. split; [reflexivity|]. intros _. exists child.
      split; [reflexivity|]. split.
      * subst child. destruct (nullish _); [|exact Hdoc].
        rewrite get_set_other by congruence. exact Hdoc.
      * unfold docs_of at 1. cbn [colls]. now rewrite lookup_insert_eq.
  - intros query.
    unfold get_nested, param_mainResource, param_id, param_resource.
    rewrite Hid. fold pf. unfold bind.
    split; [apply get_set_same|].
    split; [intros k Hk; apply get_set_other; congruence|].
    destruct (fault_at w 0) as [e|] eqn:F.
    + rewrite (find_failed _ _ _ _ F). answer.
      split; [reflexivity|discriminate].
    + rewrite (find_ok _ _ _ F). answer.
      split; [reflexivity|]. intros _. eexists.
      split; [reflexivity|]. split; [reflexivity|].
      apply List.Forall_forall. intros d Hd. apply filter_In in Hd as [_ Hm].
      apply value_eqb_id. eapply matches_field; [|exact Hm]. apply in_set.
Qed.

Lemma nested_linkage_witness :
  ObjectID hex_id = Some hex_oid /\
  parentField_of "repos" = "reposId" /\
  fst (get_nested "repos" hex_id "issues" [] w_issues) =
    Responded (Response 200 (Stream [issue_a])).
Proof.
  split; [reflexivity|]. split; [reflexivity|].
  destruct (nested_linkage "repos" hex_id hex_oid "issues" w_issues eq_refl)
    as [_ H].
  destruct (H []) as (_ & _ & _ & H').
  destruct (H' eq_refl) as (docs & Hout & Hdocs & _).
  rewrite Hout, Hdocs. reflexivity.
Defined.

(** ** Schema inference *)

Lemma merge_value_obj (dst : value) (fs : obj) :
  merge_value dst (VObj fs) = VObj (baseMerge (as_object dst) fs).
Proof. reflexivity. Qed.

Lemma merge_value_arr (dst : value) (items : list value) :
  merge_value dst (VArr items) = VArr (baseMergeArray (as_array dst) items).
Proof. reflexivity. Qed.

(** Within the source's length an item is the merge of the two items at
    its index; past it the array at hand is kept. *)
Lemma baseMergeArray_nth (object source : list value) (i : nat) :
  nth i (baseMergeArray object source) VUndefined =
    if (i <? length source)%nat
    then merge_value (nth i object VUndefined) (nth i source VUndefined)
    else nth i object VUndefined.
Proof.
  revert object i. induction source as [|src rest IH]; intros object i.
  - reflexivity.
  - destruct object as [|v object]; destruct i as [|i]; simpl; try reflexivity.
    + rewrite IH. change (S i <? S (length rest))%nat with (i <? length rest)%nat.
      destruct (i <? length rest)%nat; destruct i; reflexivity.
    + rewrite IH. reflexivity.
Qed.

Lemma merge_value_scalar (dst v : value) :
  is_scalar v = true -> merge_value dst v = v.
Proof. destruct v; simpl; intros H; try discriminate H; reflexivity. Qed.

(** A key the source does not have keeps its value. *)
Lemma baseMerge_get_other (object source : obj) (k : string) :
  ~ In k (keys source) -> get (baseMerge object source) k = get object k.
Proof.
  revert object. induction source as [|[k1 v1] rest IH]; intros object H.
  - reflexivity.
  - simpl in *. rewrite IH by tauto. apply get_set_other. tauto.
Qed.

(** A key of the source gets the merge of what the object held with what
    the source holds. *)
Lemma baseMerge_get (object source : obj) (k : string) (v : value) :
  List.NoDup (keys source) -> In (k, v) source ->
  get (baseMerge object source) k = merge_value (get object k) v.
Proof.
  revert object. induction source as [|[k1 v1] rest IH]; intros object Hnd Hin.
  - destruct Hin.
  - simpl in Hnd. inversion Hnd as [|? ? Hk1 Hrest]; subst. simpl.
    destruct Hin as [[= -> ->]|Hin].
    + rewrite baseMerge_get_other by assumption. apply get_set_same.
    + rewrite (IH _ Hrest Hin). rewrite get_set_other; [reflexivity|].
      intros ->. apply Hk1. change k with (fst (k, v)). now apply in_map.
Qed.

Lemma merge_all_snoc (cursor : list obj) (doc : obj) :
  merge_all (cursor ++ [doc]) = merge [] [merge_all cursor; doc].
Proof. unfold merge_all. now rewrite fold_left_app. Qed.

Lemma filter_everything (ds : list obj) : List.filter (matches []) ds = ds.
Proof. induction ds as [|d ds IH]; simpl; [reflexivity|now rewrite IH]. Qed.

Lemma fault_at_called (o : op) (w : world) (n : nat) :
  fault_at (called o w) n = fault_at w (S n).
Proof. unfold fault_at, called. cbn. destruct (faults w); destruct n; reflexivity. Qed.

(** An induction principle that reaches the items of arrays and the
    fields of objects. *)
Lemma value_nested_ind (P : value -> Prop) :
  P VUndefined -> P VNull -> (forall b, P (VBool b)) -> (forall n, P (VNum n)) ->
  (forall s, P (VStr s)) -> (forall ms, P (VDate ms)) -> (forall b, P (VId b)) ->
  (forall items, List.Forall P items -> P (VArr items)) ->
  (forall fs, List.Forall (fun kv => P (snd kv)) fs -> P (VObj fs)) ->
  forall v, P v.
Proof.
  intros H1 H2 H3 H4 H5 H6 H7 HArr HObj.
  fix IH 1. intros [| |b|n|s|ms|b|items|fs].
  - exact H1.
  - exact H2.
  - apply H3.
  - apply H4.
  - apply H5.
  - apply H6.
  - apply H7.
  - apply HArr. induction items as [|x items IHitems]; constructor.
    + apply IH.
    + exact IHitems.
  - apply HObj. induction fs as [|[k x] fs IHfs]; constructor.
    + apply IH.
    + exact IHfs.
Qed.

Lemma append_assoc (a b c : string) :
  String.append (String.append a b) c = String.append a (String.append b c).
Proof.
  induction a as [|x a IH]; [reflexivity|].
  change (String x (String.append (String.append a b) c) =
          String x (String.append a (String.append b c))).
  now rewrite IH.
Qed.

(** Every path of the shape of a value starts with the path of the
    value. *)
Lemma shape_paths (v : value) :
  forall p q, In q (keys (shape p v)) ->
    q = p \/ exists r, q = String.append p (String.append "." r).
Proof.
  induction v as [| | | | | | |items _|fs IH] using value_nested_ind;
    intros p q H; try (destruct H as [E|[]]; left; now rewrite <- E).
  right. simpl in H. induction fs as [|[k x] fs IHfs]; [destruct H|].
  inversion IH as [|? ? Hx Hfs]; subst.
  unfold keys in H. rewrite map_app in H. apply in_app_or in H.
  destruct H as [H|H].
  - destruct (Hx _ _ H) as [->|[r ->]].
    + now exists k.
    + exists (String.append k (String.append "." r)).
      now rewrite !append_assoc.
  - now apply IHfs.
Qed.

Lemma fromObject_keys (o : obj) (q : string) :
  In q (keys (fromObject o)) ->
  exists k v, In (k, v) o /\ In q (keys (shape k v)).
Proof.
  induction o as [|[k v] o IH]; simpl; [tauto|].
  unfold keys. rewrite map_app. intros H. apply in_app_or in H.
  destruct H as [H|H].
  - exists k, v. split; [now left|exact H].
  - destruct (IH H) as (k' & v' & Hin & Hq). exists k', v'. split; [now right|exact Hq].
Qed.

Lemma dotted_not_id (k r : string) :
  String.append k (String.append "." r) <> "_id".
Proof. intros H. peel H k. Qed.

(** No path of the schema is [_id] once the field is deleted. *)
Lemma schema_without_id (merged : obj) :
  ~ In "_id" (keys (fromObject (del merged "_id"))).
Proof.
  intros H. apply fromObject_keys in H as (k & v & Hin & Hq).
  apply shape_paths in Hq as [E|[r E]].
  - subst k. apply (keys_del merged "_id").
    apply (in_map fst) in Hin. exact Hin.
  - symmetry in E. exact (dotted_not_id _ _ E).
Qed.

(** The route, when the count and the query succeed. *)
Lemma get_collection_resource_ok (resource : string) (w : world) :
  fault_at w 0 = None -> fault_at w 1 = None ->
  get_collection_resource resource w =
    (Responded
       (Response 200
          (Json (VObj
             [("name", VStr (camelize resource));
              ("count", VNum (Z.of_nat (length (docs_of w (camelize resource)))));
              ("schema",
               VObj (fromObject
                       (del (merge_all (docs_of w (camelize resource))) "_id")))]))),
     called (OpFind (camelize resource) [])
            (called (OpCount (camelize resource)) w)).
Proof.
  intros F0 F1. unfold get_collection_resource, param_resource, bind.
  rewrite (count_ok _ _ F0). cbn [fst snd].
  rewrite find_ok by (now rewrite fault_at_called).
  cbn [fst snd]. rewrite filter_everything. reflexivity.
Qed.

(** C3 as stated fails on arrays: an array of the later document does
    not replace the array accumulated, it is merged into it index by
    index. *)
Lemma merge_keeps_array_tail :
  get tags_b "tags" = VArr [VNum 9] /\
  get (merge_all [tags_a; tags_b]) "tags" = VArr [VNum 9; VNum 2; VNum 3] /\
  get (merge_all [tags_a; tags_b]) "tags" <> get tags_b "tags".
Proof. repeat split. discriminate. Qed.

(** C3, with arrays: the schema route answers with the shape of the
    fold of the documents, in stream order, [_id] deleted. The fold
    takes one document at a time into [_.merge({}, merged, doc)]. In one
    step a field of the document that holds neither an object, nor an
    array, nor [undefined] replaces what was accumulated; a field that
    holds a plain object is merged key by key into the plain object
    accumulated, or into [{}] when something else was; a field that
    holds an array is merged index by index into the array accumulated,
    or into [[]]; a field the document lacks stays as accumulated.
    Neither the object handed to [schema.fromObject] nor the schema has
    the key [_id], and for the documents [{a: 1}] then [{a: "x", b: 2}]
    the schema has exactly the keys [a] and [b]. *)
Theorem schema_inference :
  (forall resource w,
     fault_at w 0 = None -> fault_at w 1 = None ->
     fst (get_collection_resource resource w) =
       Responded
         (Response 200
            (Json (VObj
               [("name", VStr (camelize resource));
                ("count", VNum (Z.of_nat (length (docs_of w (camelize resource)))));
                ("schema",
                 VObj (fromObject
                         (del (merge_all (docs_of w (camelize resource)))
                              "_id")))])))) /\
  merge_all [] = [] /\
  (forall cursor doc,
     merge_all (cursor ++ [doc]) = merge [] [merge_all cursor; doc]) /\
  (forall merged doc k v,
     List.NoDup (keys doc) -> In (k, v) doc ->
     let accumulated := get (merge [] [merged]) k in
     let result := get (merge [] [merged; doc]) k in
     (is_scalar v = true -> result = v) /\
     (forall fs, v = VObj fs ->
        result = VObj (baseMerge (as_object accumulated) fs) /\
        (forall k' v', List.NoDup (keys fs) -> In (k', v') fs ->
           get (baseMerge (as_object accumulated) fs) k' =
             merge_value (get (as_object accumulated) k') v') /\
        (forall k', ~ In k' (keys fs) ->
           get (baseMerge (as_object accumulated) fs) k' =
             get (as_object accumulated) k')) /\
     (forall items, v = VArr items ->
        result = VArr (baseMergeArray (as_array accumulated) items) /\
        forall i,
          nth i (baseMergeArray (as_array accumulated) items) VUndefined =
            if (i <? length items)%nat
            then merge_value (nth i (as_array accumulated) VUndefined)
                             (nth i items VUndefined)
            else nth i (as_array accumulated) VUndefined)) /\
  (forall merged doc k,
     ~ In k (keys doc) ->
     get (merge [] [merged; doc]) k = get (merge [] [merged]) k) /\
  (forall cursor,
     ~ In "_id" (keys (del (merge_all cursor) "_id")) /\
     ~ In "_id" (keys (fromObject (del (merge_all cursor) "_id")))) /\
  fromObject (del (merge_all [doc_a; doc_b]) "_id") =
    [("a", VStr "string"); ("b", VStr "number")].
Proof.
  split.
  { intros resource w F0 F1.
    now rewrite (get_collection_resource_ok resource w F0 F1). }
  split; [reflexivity|].
  split; [apply merge_all_snoc|].
  split.
  { intros merged doc k v Hnd Hin. cbv zeta. unfold merge. simpl fold_left.
    rewrite (baseMerge_get _ doc k v Hnd Hin).
    split; [apply merge_value_scalar|]. split.
    - intros fs ->. split; [apply merge_value_obj|].
      split.
      + intros k' v' Hnd' Hin'. now apply baseMerge_get.
      + intros k' Hk'. now apply baseMerge_get_other.
    - intros items ->. split; [apply merge_value_arr|].
      intros i. apply baseMergeArray_nth. }
  split.
  { intros merged doc k Hk. unfold merge. simpl fold_left.
    now apply baseMerge_get_other. }
  split.
  { intros cursor. split; [apply keys_del|apply schema_without_id]. }
  reflexivity.
Qed.

Lemma schema_inference_witness :
  List.NoDup (keys doc_b) /\ In ("a", VStr "x") doc_b /\
  get (merge [] [merge_all [doc_a]; doc_b]) "a" = VStr "x".
Proof.
  assert (Hnd : List.NoDup (keys doc_b)).
  { repeat constructor; simpl; intuition discriminate. }
  assert (Hin : In ("a", VStr "x") doc_b) by (right; now left).
  split; [exact Hnd|]. split; [exact Hin|].
  destruct schema_inference as (_ & _ & _ & H & _).
  exact (proj1 (H (merge_all [doc_a]) doc_b "a" (VStr "x") Hnd Hin) eq_refl).
Defined.

(** ** Writes without a body, behind the body parser *)

(** C8, on the code: a request without a body does not reach the guard
    with [req.body] undefined, since [bodyParser.json()] has put [{}]
    there. POST /:resource then hands the store a document of the two
    time stamps and answers 200 with it; POST
    /:mainResource/:id/:resource, with a valid identifier, does the same
    with the parent field added; PUT /:resource/:id, with a valid
    identifier, replaces by a document of [updatedAt] alone and answers
    204. None answers 400 and each makes a store write. *)
Theorem no_body_still_writes (resource : string) (w : world) :
  let c := camelize resource in
  let now := VDate (clock w) in
  bodyParser_json None = Some [] /\
  (trace (snd (post_resource resource (bodyParser_json None) w)) =
     trace w ++ [OpInsert c [("createdAt", now); ("updatedAt", now)]] /\
   (fault_at w 0 = None ->
      exists stored,
        fst (post_resource resource (bodyParser_json None) w) =
          Responded (Response 200 (Json (VObj stored))) /\
        docs_of (snd (post_resource resource (bodyParser_json None) w)) c =
          docs_of w c ++ [stored])) /\
  (forall mainResource id oid,
     ObjectID id = Some oid ->
     let doc := set (set [(parentField_of mainResource, VId oid)]
                         "createdAt" now) "updatedAt" now in
     trace (snd (post_nested mainResource id resource (bodyParser_json None) w)) =
       trace w ++ [OpInsert c doc] /\
     (fault_at w 0 = None ->
        exists stored,
          fst (post_nested mainResource id resource (bodyParser_json None) w) =
            Responded (Response 200 (Json (VObj stored))) /\
          docs_of (snd (post_nested mainResource id resource
                          (bodyParser_json None) w)) c =
            docs_of w c ++ [stored])) /\
  (forall id oid,
     ObjectID id = Some oid ->
     trace (snd (put_resource_id resource id (bodyParser_json None) w)) =
       trace w ++ [OpUpdate c [("_id", VId oid)] [("updatedAt", now)]] /\
     (fault_at w 0 = None ->
        fst (put_resource_id resource id (bodyParser_json None) w) =
          Responded (Response 204 NoBody))).
Proof.
  cbv zeta. split; [reflexivity|]. split; [|split].
  - unfold post_resource, param_resource, bodyParser_json, bind, new_Date.
    cbn [fst snd set get String.eqb Ascii.eqb Bool.eqb].
    destruct (fault_at w 0) as [e|] eqn:F.
    + rewrite (insert_failed _ _ _ _ F). answer.
      split; [reflexivity|discriminate].
    + destruct (insert_ok (camelize resource)
                  [("createdAt", VDate (clock w)); ("updatedAt", VDate (clock w))]
                  w F) as (stored & -> & _).
      answer. split; [reflexivity|]. intros _. exists stored.
      split; [reflexivity|].
      unfold docs_of at 1. cbn [colls]. now rewrite lookup_insert_eq.
  - intros mainResource id oid Hid.
    unfold post_nested, param_mainResource, param_id, param_resource,
      bodyParser_json.
    rewrite Hid. unfold bind, new_Date. cbn [fst snd]. rewrite get_set_same.
    fold (parentField_of mainResource).
    change (set [] (parentField_of mainResource) (VId oid))
      with [(parentField_of mainResource, VId oid)].
    set (doc := set (set [(parentField_of mainResource, VId oid)]
                         "createdAt" (VDate (clock w)))
                    "updatedAt" (VDate (clock w))).
    destruct (fault_at w 0) as [e|] eqn:F.
    + rewrite (insert_failed _ _ _ _ F). answer.
      split; [reflexivity|discriminate].
    + destruct (insert_ok (camelize resource) doc w F) as (stored & -> & _).
      answer. split; [reflexivity|]. intros _. exists stored.
      split; [reflexivity|].
      unfold docs_of at 1. cbn [colls]. now rewrite lookup_insert_eq.
  - intros id oid Hid.
    unfold put_resource_id, param_resource, param_id, bodyParser_json.
    rewrite Hid. unfold bind, new_Date. cbn [fst snd del set].
    destruct (fault_at w 0) as [e|] eqn:F.
    + rewrite (update_failed _ _ _ _ _ F). answer.
      split; [reflexivity|discriminate].
    + rewrite (update_ok _ _ _ _ F). answer. split; reflexivity.
Qed.

Lemma no_body_still_writes_witness :
  fst (post_resource "widgets" (bodyParser_json None) w0) =
    Responded
      (Response 200
         (Json (VObj [("createdAt", VDate 0); ("updatedAt", VDate 0);
                      ("_id", VId (next_pk w0))]))) /\
  trace (snd (post_resource "widgets" (bodyParser_json None) w0)) =
    [OpInsert "widgets" [("createdAt", VDate 0); ("updatedAt", VDate 0)]] /\
  fst (put_resource_id "widgets" hex_id (bodyParser_json None) w_widgets) =
    Responded (Response 204 NoBody).
Proof.
  destruct (no_body_still_writes "widgets" w0) as (_ & (Ht & _) & _).
  destruct (no_body_still_writes "widgets" w_widgets) as (_ & _ & _ & Hput).
  split; [reflexivity|]. split; [exact Ht|].
  exact (proj2 (Hput hex_id hex_oid eq_refl) eq_refl).
Defined.

(** * Further properties *)

(** ** Equality of values *)

Lemma value_eqb_arr_cons (x y : value) (xs ys : list value) :
  value_eqb (VArr (x :: xs)) (VArr (y :: ys)) =
    value_eqb x y && value_eqb (VArr xs) (VArr ys).
Proof. reflexivity. Qed.

Lemma value_eqb_obj_cons (k k' : string) (x y : value) (fs gs : obj) :
  value_eqb (VObj ((k, x) :: fs)) (VObj ((k', y) :: gs)) =
    String.eqb k k' && value_eqb x y && value_eqb (VObj fs) (VObj gs).
Proof. reflexivity. Qed.

(** [value_eqb] decides equality. *)
Lemma value_eqb_eq (v : value) : forall w, value_eqb v w = true <-> v = w.
Proof.
  induction v as [| |b|n|s|ms|b|items IH|fs IH] using value_nested_ind;
    intros w.
  1-7: destruct w; simpl; split; try discriminate; try reflexivity.
  - intros H. apply Bool.eqb_prop in H. now subst.
  - intros [= ->]. apply Bool.eqb_reflx.
  - intros H. apply Z.eqb_eq in H. now subst.
  - intros [= ->]. apply Z.eqb_refl.
  - intros H. apply String.eqb_eq in H. now subst.
  - intros [= ->]. apply String.eqb_refl.
  - intros H. apply Z.eqb_eq in H. now subst.
  - intros [= ->]. apply Z.eqb_refl.
  - intros H. apply String.eqb_eq in H. now subst.
  - intros [= ->]. apply String.eqb_refl.
  - destruct w as [| | | | | | |ys|]; try (split; [discriminate 1|discriminate 1]).
    revert ys. induction IH as [|x xs Hx _ IHxs]; intros [|y ys];
      try (split; [discriminate 1|discriminate 1]).
    + split; reflexivity.
    + rewrite value_eqb_arr_cons, andb_true_iff, Hx, IHxs.
      split; [intros [-> [= ->]]; reflexivity|intros [= -> ->]; auto].
  - destruct w as [| | | | | | | |gs]; try (split; [discriminate 1|discriminate 1]).
    revert gs. induction IH as [|[k x] fs' Hx _ IHfs]; intros [|[k' y] gs];
      try (split; [discriminate 1|discriminate 1]).
    + split; reflexivity.
    + rewrite value_eqb_obj_cons, !andb_true_iff, String.eqb_eq.
      simpl in Hx. rewrite Hx, IHfs.
      split; [intros [[-> ->] [= ->]]; reflexivity|intros [= -> -> ->]; auto].
Qed.

(** A document matches a query exactly when it has each field of the
    query with the same value. *)
Lemma matches_spec (filter d : obj) :
  matches filter d = true <->
  forall k v, In (k, v) filter -> get d k = v.
Proof.
  unfold matches. rewrite forallb_forall. split.
  - intros H k v Hin. apply value_eqb_eq. exact (H (k, v) Hin).
  - intros H [k v] Hin. apply value_eqb_eq. now apply H.
Qed.

(** ** Reading one document *)

Lemma findOne_ok (c : string) (filter : obj) (w : world) :
  fault_at w 0 = None ->
  Collection.findOne c filter w =
    (Done (List.find (matches filter) (docs_of w c)),
     called (OpFindOne c filter) w).
Proof.
  intros H. unfold Collection.findOne, bind, call. cbn [fst snd]. now rewrite H.
Qed.

Lemma findOne_failed (c : string) (filter : obj) (w : world) (e : value) :
  fault_at w 0 = Some e ->
  Collection.findOne c filter w = (Failed e, called (OpFindOne c filter) w).
Proof.
  intros H. unfold Collection.findOne, bind, call. cbn [fst snd]. now rewrite H.
Qed.

(** [List.find] gives the first element that passes, or none passes. *)
Lemma find_first {A} (f : A -> bool) (l : list A) :
  (List.find f l = None /\ List.Forall (fun x => f x = false) l) \/
  (exists before x after,
     l = before ++ x :: after /\ List.find f l = Some x /\ f x = true /\
     List.Forall (fun x => f x = false) before).
Proof.
  induction l as [|y l IH]; simpl.
  - left. split; [reflexivity|constructor].
  - destruct (f y) eqn:E.
    + right. exists [], y, l. repeat split; auto.
    + destruct IH as [(Hn & Hall)|(b & x & a & Hl & Hf & Hx & Hall)].
      * left. split; [assumption|now constructor].
      * right. exists (y :: b), x, a.
        split; [now rewrite Hl|]. split; [assumption|].
        split; [assumption|now constructor].
Qed.

(** What GET /:resource/:id answers when the store does. *)
Lemma get_resource_id_run (resource id oid : string) (w : world) :
  ObjectID id = Some oid -> fault_at w 0 = None ->
  get_resource_id resource id w =
    (match List.find (matches [("_id", VId oid)]) (docs_of w (camelize resource)) with
     | Some doc => Responded (Response 200 (Json (VObj doc)))
     | None => Responded (Response 404 (Text "Not Found"))
     end,
     called (OpFindOne (camelize resource) [("_id", VId oid)]) w).
Proof.
  intros Hid F. unfold get_resource_id, param_resource, param_id, bind.
  rewrite Hid, (findOne_ok _ _ _ F). cbn [fst snd].
  destruct (List.find _ _); reflexivity.
Qed.

(** X1: GET /:resource/:id with a valid identifier makes one store call,
    the lookup by [_id], and changes no collection. A store error is
    answered 500 with the error. Otherwise the answer is 404 when no
    document of the collection has the identifier, and 200 with the
    first document that has it when there is one. *)
Theorem get_by_id (resource id oid : string) (w : world) :
  ObjectID id = Some oid ->
  let c := camelize resource in
  let out := fst (get_resource_id resource id w) in
  let w' := snd (get_resource_id resource id w) in
  trace w' = trace w ++ [OpFindOne c [("_id", VId oid)]] /\
  colls w' = colls w /\
  (forall e, fault_at w 0 = Some e -> out = Responded (Response 500 (Json e))) /\
  (fault_at w 0 = None ->
     (out = Responded (Response 404 (Text "Not Found")) /\
      List.Forall (fun d => get d "_id" <> VId oid) (docs_of w c)) \/
     (exists before doc after,
        docs_of w c = before ++ doc :: after /\
        List.Forall (fun d => get d "_id" <> VId oid) before /\
        get doc "_id" = VId oid /\
        out = Responded (Response 200 (Json (VObj doc))))).
Proof.
  intros Hid. cbv zeta. destruct (fault_at w 0) as [e|] eqn:F.
  - unfold get_resource_id, param_resource, param_id, bind.
    rewrite Hid, (findOne_failed _ _ _ _ F). answer.
    repeat split; try discriminate. now intros e' [= <-].
  - rewrite (get_resource_id_run _ _ _ _ Hid F). cbn [fst snd].
    split; [reflexivity|]. split; [reflexivity|]. split; [discriminate|].
    intros _.
    destruct (find_first (matches [("_id", VId oid)]) (docs_of w (camelize resource)))
      as [(-> & Hall)|(b & x & a & Hl & -> & Hx & Hall)].
    + left. split; [reflexivity|now apply Forall_not_id].
    + right. exists b, x, a. repeat split; auto.
      * now apply Forall_not_id.
      * now apply matches_id.
Qed.

Lemma get_by_id_witness :
  ObjectID hex_id = Some hex_oid /\
  fst (get_resource_id "widgets" hex_id w_widgets) =
    Responded (Response 200 (Json (VObj widget))).
Proof.
  split; [reflexivity|].
  destruct (get_by_id "widgets" hex_id hex_oid w_widgets eq_refl)
    as (_ & _ & _ & H).
  destruct (H eq_refl) as [(_ & Hall)|(b & x & a & _ & _ & _ & Hout)].
  - exfalso. vm_compute in Hall. inversion Hall as [|? ? Hd _]. now apply Hd.
  - reflexivity.
Defined.

(** ** Listing *)

(** X2: GET /:resource makes one store call, the query with the request's
    query object handed over as it is, and changes no collection. A
    store error is answered 500 with the error. Otherwise the answer is
    200 with a stream of documents of the collection, which for an
    empty query is every document of the collection, in its order. *)
Theorem list_reads_only (resource : string) (query : obj) (w : world) :
  let c := camelize resource in
  let out := fst (get_resource resource query w) in
  let w' := snd (get_resource resource query w) in
  trace w' = trace w ++ [OpFind c query] /\
  colls w' = colls w /\
  (forall e, fault_at w 0 = Some e -> out = Responded (Response 500 (Json e))) /\
  (fault_at w 0 = None ->
     exists docs,
       out = Responded (Response 200 (Stream docs)) /\
       (forall d, In d docs -> In d (docs_of w c)) /\
       (query = [] -> docs = docs_of w c)).
Proof.
  cbv zeta. unfold get_resource, param_resource, bind.
  destruct (fault_at w 0) as [e|] eqn:F.
  - rewrite (find_failed _ _ _ _ F). answer.
    repeat split; try discriminate. now intros e' [= <-].
  - rewrite (find_ok _ _ _ F). answer.
    split; [reflexivity|]. split; [reflexivity|]. split; [discriminate|].
    intros _. eexists. split; [reflexivity|]. split.
    + intros d Hd. now apply filter_In in Hd.
    + intros ->. apply filter_everything.
Qed.

Lemma list_reads_only_witness :
  fst (get_resource "issues" [] w_issues) =
    Responded (Response 200 (Stream [issue_a; issue_b])).
Proof.
  destruct (list_reads_only "issues" [] w_issues) as (_ & _ & _ & H).
  destruct (H eq_refl) as (docs & -> & _ & Hall).
  rewrite (Hall eq_refl). reflexivity.
Defined.

(** ** Creating *)

(** POST /:resource when the store takes the document. *)
Lemma post_resource_ok (resource : string) (body : obj) (w : world) :
  fault_at w 0 = None ->
  let c := camelize resource in
  let doc := set (set body "createdAt" (VDate (clock w)))
                 "updatedAt" (VDate (clock w)) in
  let stored := if nullish (get body "_id")
                then set doc "_id" (VId (next_pk w)) else doc in
  post_resource resource (Some body) w =
    (Responded (Response 200 (Json (VObj stored))),
     World (<[c := docs_of w c ++ [stored]]> (colls w)) (tail (faults w))
           (clock w) (if nullish (get body "_id") then S (pk w) else pk w)
           (trace w ++ [OpInsert c doc])).
Proof.
  intros F. cbv zeta.
  unfold post_resource, param_resource, bind, new_Date. cbn [fst snd].
  rewrite get_set_same.
  set (doc := set (set body "createdAt" (VDate (clock w)))
                  "updatedAt" (VDate (clock w))).
  assert (Hid : get doc "_id" = get body "_id").
  { unfold doc. now rewrite !get_set_other by discriminate. }
  destruct (insert_ok (camelize resource) doc w F) as (stored & -> & ->).
  answer. rewrite Hid. reflexivity.
Qed.

(** X3: POST /:resource with a body hands the store the body with
    [createdAt] and [updatedAt] both set to the clock, whatever the
    client sent there, and its other fields untouched. A store error is
    answered 500 and changes no collection. Otherwise the answer is 200
    with the stored document, which is the new last document of the
    collection: the document handed over, with the driver's next
    identifier as [_id] when the body had none, and exactly as handed
    over when the body brought its own. *)
Theorem post_stamps (resource : string) (body : obj) (w : world) :
  let c := camelize resource in
  let doc := set (set body "createdAt" (VDate (clock w)))
                 "updatedAt" (VDate (clock w)) in
  let out := fst (post_resource resource (Some body) w) in
  let w' := snd (post_resource resource (Some body) w) in
  get doc "createdAt" = VDate (clock w) /\
  get doc "updatedAt" = get doc "createdAt" /\
  (forall k, k <> "createdAt" -> k <> "updatedAt" -> get doc k = get body k) /\
  trace w' = trace w ++ [OpInsert c doc] /\
  (forall e, fault_at w 0 = Some e ->
     out = Responded (Response 500 (Json e)) /\ colls w' = colls w) /\
  (fault_at w 0 = None ->
     exists stored,
       out = Responded (Response 200 (Json (VObj stored))) /\
       docs_of w' c = docs_of w c ++ [stored] /\
       (nullish (get body "_id") = true ->
          stored = set doc "_id" (VId (next_pk w))) /\
       (nullish (get body "_id") = false -> stored = doc)).
Proof.
  cbv zeta.
  set (doc := set (set body "createdAt" (VDate (clock w)))
                  "updatedAt" (VDate (clock w))).
  assert (Hc : get doc "createdAt" = VDate (clock w)).
  { unfold doc. rewrite get_set_other by discriminate. apply get_set_same. }
  split; [exact Hc|]. split; [rewrite Hc; apply get_set_same|].
  split.
  { intros k H1 H2. unfold doc. now rewrite !get_set_other by congruence. }
  assert (Hid : get doc "_id" = get body "_id").
  { unfold doc. now rewrite !get_set_other by discriminate. }
  unfold post_resource, param_resource, bind, new_Date. cbn [fst snd].
  rewrite get_set_same. fold doc.
  destruct (fault_at w 0) as [e|] eqn:F.
  - rewrite (insert_failed _ _ _ _ F). answer.
    split; [reflexivity|]. split; [|discriminate].
    intros e' [= <-]. split; reflexivity.
  - fold doc in Hid. clear Hid.
    pose proof (post_resource_ok resource body w F) as E. cbv zeta in E.
    fold doc in E.
    unfold post_resource, param_resource, bind, new_Date in E.
    cbn [fst snd] in E. rewrite get_set_same in E. fold doc in E.
    rewrite E. cbn [fst snd trace].
    split; [reflexivity|]. split; [discriminate|]. intros _.
    eexists. split; [reflexivity|]. split.
    + unfold docs_of at 1. cbn [colls]. now rewrite lookup_insert_eq.
    + split; intros Hn; now rewrite Hn.
Qed.

(** ** Round trips *)

Lemma string_length_append (a b : string) :
  String.length (String.append a b) = (String.length a + String.length b)%nat.
Proof.
  induction a as [|x a IH]; [reflexivity|].
  change (S (String.length (String.append a b)) =
          S (String.length a + String.length b)).
  now rewrite IH.
Qed.

Lemma be_bytes_length (len : nat) (n : N) : String.length (be_bytes len n) = len.
Proof.
  revert n. induction len as [|len IH]; intros n; [reflexivity|].
  change (be_bytes (S len) n)
    with (String.append (be_bytes len (n / 256)%N)
                        (String (ascii_of_N (n mod 256)%N) EmptyString)).
  rewrite string_length_append, IH. simpl. lia.
Qed.

(** The driver's identifiers are identifiers the routes take. *)
Lemma ObjectID_next_pk (w : world) : ObjectID (next_pk w) = Some (next_pk w).
Proof.
  unfold ObjectID, next_pk. now rewrite be_bytes_length.
Qed.

Lemma find_last {A} (f : A -> bool) (l : list A) (x : A) :
  List.Forall (fun y => f y = false) l -> f x = true ->
  List.find f (l ++ [x]) = Some x.
Proof.
  intros Hall Hx. induction Hall as [|y l Hy _ IH]; simpl.
  - now rewrite Hx.
  - now rewrite Hy.
Qed.

Lemma not_in_ids (w : world) (c : string) (oid : string) :
  ~ In (VId oid) (ids_of w c) ->
  List.Forall (fun d => matches [("_id", VId oid)] d = false) (docs_of w c).
Proof.
  unfold ids_of. intros H. apply List.Forall_forall. intros d Hd.
  destruct (matches _ d) eqn:E; [|reflexivity].
  exfalso. apply H. apply matches_id in E. rewrite <- E.
  now apply (in_map (fun d => get d "_id")).
Qed.

(** X4: when the body has no [_id] and no document of the collection
    already has the identifier the driver is about to give, a POST
    /:resource followed by a GET /:resource/:id with that identifier,
    in its 12-byte form, answers the document the POST answered. *)
Theorem post_then_get (resource : string) (body : obj) (w : world) :
  fault_at w 0 = None -> fault_at w 1 = None ->
  nullish (get body "_id") = true ->
  ~ In (VId (next_pk w)) (ids_of w (camelize resource)) ->
  let w1 := snd (post_resource resource (Some body) w) in
  exists stored,
    fst (post_resource resource (Some body) w) =
      Responded (Response 200 (Json (VObj stored))) /\
    get stored "_id" = VId (next_pk w) /\
    (forall k, k <> "_id" -> k <> "createdAt" -> k <> "updatedAt" ->
       get stored k = get body k) /\
    fst (get_resource_id resource (next_pk w) w1) =
      Responded (Response 200 (Json (VObj stored))).
Proof.
  intros F0 F1 Hn Hfresh. cbv zeta.
  rewrite (post_resource_ok resource body w F0). cbn [fst snd].
  rewrite Hn.
  set (doc := set (set body "createdAt" (VDate (clock w)))
                  "updatedAt" (VDate (clock w))).
  set (stored := set doc "_id" (VId (next_pk w))).
  exists stored. split; [reflexivity|].
  split; [apply get_set_same|]. split.
  { intros k H1 H2 H3. unfold stored, doc.
    now rewrite !get_set_other by congruence. }
  set (w1 := World _ _ _ _ _).
  assert (F : fault_at w1 0 = None).
  { unfold fault_at in *. cbn [faults w1].
    destruct (faults w) as [|f fs]; [reflexivity|exact F1]. }
  rewrite (get_resource_id_run _ _ _ _ (ObjectID_next_pk w) F). cbn [fst].
  unfold docs_of at 1. cbn [colls w1]. rewrite lookup_insert_eq.
  cbn [default from_option id].
  rewrite (find_last _ _ stored); [reflexivity| |].
  - now apply not_in_ids.
  - apply matches_id. apply get_set_same.
Qed.

Lemma post_then_get_witness :
  fst (get_resource_id "widgets" (next_pk w0)
         (snd (post_resource "widgets" (Some [("name", VStr "foo")]) w0))) =
    fst (post_resource "widgets" (Some [("name", VStr "foo")]) w0).
Proof.
  assert (Hfresh : ~ In (VId (next_pk w0)) (ids_of w0 (camelize "widgets"))).
  { intros []. }
  destruct (post_then_get "widgets" [("name", VStr "foo")] w0
              eq_refl eq_refl eq_refl Hfresh) as (stored & Hp & _ & _ & Hg).
  rewrite Hp, Hg. reflexivity.
Defined.

Lemma find_middle {A} (f : A -> bool) (before after : list A) (x : A) :
  List.Forall (fun y => f y = false) before -> f x = true ->
  List.find f (before ++ x :: after) = Some x.
Proof.
  intros Hall Hx. induction Hall as [|y l Hy _ IH]; simpl.
  - now rewrite Hx.
  - now rewrite Hy.
Qed.

Lemma find_nothing {A} (f : A -> bool) (l : list A) :
  List.Forall (fun y => f y = false) l -> List.find f l = None.
Proof.
  intros Hall. induction Hall as [|y l Hy _ IH]; simpl; [reflexivity|].
  now rewrite Hy.
Qed.

Lemma remove_first_nothing (sel : obj) (ds : list obj) :
  List.Forall (fun d => matches sel d = false) ds -> remove_first sel ds = (ds, 0).
Proof.
  intros Hall. induction Hall as [|d ds Hd _ IH]; simpl; [reflexivity|].
  now rewrite Hd, IH.
Qed.

Lemma in_ids_matches (w : world) (c oid : string) :
  In (VId oid) (ids_of w c) ->
  ~ List.Forall (fun d => matches [("_id", VId oid)] d = false) (docs_of w c).
Proof.
  unfold ids_of. intros Hin Hall. apply in_map_iff in Hin as (d & Hd & Hin).
  rewrite List.Forall_forall in Hall. specialize (Hall d Hin).
  apply matches_id in Hd. congruence.
Qed.

(** PUT /:resource/:id when the store takes the replacement. *)
Lemma put_resource_id_ok (resource id oid : string) (body : obj) (w : world) :
  ObjectID id = Some oid -> fault_at w 0 = None ->
  let c := camelize resource in
  let sel := [("_id", VId oid)] in
  let doc := set (del body "_id") "updatedAt" (VDate (clock w)) in
  put_resource_id resource id (Some body) w =
    (Responded (Response 204 NoBody),
     stored (OpUpdate c sel doc) c (replace_first sel doc (docs_of w c)) w).
Proof.
  intros Hid F. cbv zeta.
  unfold put_resource_id, param_resource, param_id. rewrite Hid.
  unfold bind, new_Date. cbn [fst snd].
  rewrite (update_ok _ _ _ _ F). reflexivity.
Qed.

Lemma fault_at_stored (o : op) (c : string) (ds : list obj) (w : world) (n : nat) :
  fault_at (stored o c ds w) n = fault_at w (S n).
Proof.
  unfold fault_at, stored. cbn. destruct (faults w); destruct n; reflexivity.
Qed.

(** X5: after a PUT /:resource/:id that the store takes, a GET of the
    same identifier answers, when a document had the identifier, that
    identifier followed by the fields sent (without the [_id] sent) and
    [updatedAt] at the time of the PUT, nothing of the old document
    remaining; when no document had it the PUT, although answered 204,
    created nothing and the GET answers 404. *)
Theorem put_then_get (resource id oid : string) (body : obj) (w : world) :
  ObjectID id = Some oid ->
  fault_at w 0 = None -> fault_at w 1 = None ->
  let c := camelize resource in
  let w1 := snd (put_resource_id resource id (Some body) w) in
  fst (put_resource_id resource id (Some body) w) =
    Responded (Response 204 NoBody) /\
  (In (VId oid) (ids_of w c) ->
     fst (get_resource_id resource id w1) =
       Responded
         (Response 200
            (Json (VObj (("_id", VId oid)
                         :: set (del body "_id") "updatedAt" (VDate (clock w))))))) /\
  (~ In (VId oid) (ids_of w c) ->
     docs_of w1 c = docs_of w c /\
     fst (get_resource_id resource id w1) =
       Responded (Response 404 (Text "Not Found"))).
Proof.
  intros Hid F0 F1. cbv zeta.
  rewrite (put_resource_id_ok _ _ _ _ _ Hid F0). cbn [fst snd].
  split; [reflexivity|].
  set (doc := set (del body "_id") "updatedAt" (VDate (clock w))).
  assert (Hno : ~ In "_id" (keys doc)).
  { unfold doc. rewrite keys_set. intros [H|H]; [discriminate H|].
    exact (keys_del _ _ H). }
  rewrite get_resource_id_run with (oid := oid);
    [|exact Hid|now rewrite fault_at_stored].
  cbn [fst]. rewrite docs_of_stored.
  destruct (replace_first_spec [("_id", VId oid)] doc
              (docs_of w (camelize resource)))
    as [(Hd & Hall)|(b & x & a & Hds & Hd & Hx & Hall)].
  - split.
    + intros Hin. exfalso. exact (in_ids_matches _ _ _ Hin Hall).
    + intros _. rewrite Hd. split; [reflexivity|].
      now rewrite (find_nothing _ _ Hall).
  - split.
    + intros _. rewrite Hd. apply matches_id in Hx.
      rewrite Hx, (del_absent _ _ Hno).
      rewrite (find_middle _ b a); [reflexivity|exact Hall|].
      now apply matches_id.
    + intros Hnot. exfalso. apply Hnot. unfold ids_of. rewrite Hds.
      apply matches_id in Hx. rewrite <- Hx.
      apply (in_map (fun d => get d "_id")). apply in_elt.
Qed.

Lemma put_then_get_witness :
  fst (get_resource_id "widgets" hex_id
         (snd (put_resource_id "widgets" hex_id
                 (Some [("_id", VStr "mine"); ("name", VStr "bar")]) w_widgets))) =
    Responded
      (Response 200
         (Json (VObj [("_id", VId hex_oid); ("name", VStr "bar");
                      ("updatedAt", VDate 1000)]))).
Proof.
  destruct (put_then_get "widgets" hex_id hex_oid
              [("_id", VStr "mine"); ("name", VStr "bar")] w_widgets
              eq_refl eq_refl eq_refl) as (_ & H & _).
  rewrite H; [reflexivity|]. left. reflexivity.
Defined.

(** DELETE /:resource/:id when the store answers. *)
Lemma delete_resource_id_ok (resource id oid : string) (w : world) :
  ObjectID id = Some oid -> fault_at w 0 = None ->
  let c := camelize resource in
  let sel := [("_id", VId oid)] in
  delete_resource_id resource id w =
    (Responded (if snd (remove_first sel (docs_of w c)) =? 0
                then Response 404 (Text "Not Found")
                else Response 204 NoBody),
     stored (OpRemove c sel) c (fst (remove_first sel (docs_of w c))) w).
Proof.
  intros Hid F. cbv zeta.
  unfold delete_resource_id, param_resource, param_id. rewrite Hid.
  unfold bind. rewrite (remove_ok _ _ _ F). cbn [fst snd].
  destruct (snd (remove_first _ _) =? 0); reflexivity.
Qed.

(** X6: when the identifiers of the collection are all different, after
    a DELETE /:resource/:id that the store answers no document has the
    identifier any more: a GET of it answers 404 and so does a second
    DELETE, which removes nothing. *)
Theorem delete_then_gone (resource id oid : string) (w : world) :
  ObjectID id = Some oid ->
  fault_at w 0 = None -> fault_at w 1 = None ->
  List.NoDup (ids_of w (camelize resource)) ->
  let c := camelize resource in
  let w1 := snd (delete_resource_id resource id w) in
  ~ In (VId oid) (ids_of w1 c) /\
  fst (get_resource_id resource id w1) =
    Responded (Response 404 (Text "Not Found")) /\
  fst (delete_resource_id resource id w1) =
    Responded (Response 404 (Text "Not Found")) /\
  docs_of (snd (delete_resource_id resource id w1)) c = docs_of w1 c.
Proof.
  intros Hid F0 F1 Hnd. cbv zeta.
  rewrite (delete_resource_id_ok _ _ _ _ Hid F0). cbn [snd].
  set (c := camelize resource) in *. set (sel := [("_id", VId oid)]).
  set (w1 := stored _ _ _ _).
  assert (Hall : List.Forall (fun d => matches sel d = false) (docs_of w1 c)).
  { unfold w1. rewrite docs_of_stored.
    destruct (remove_first_spec sel (docs_of w c))
      as [(_ & -> & Hall)|(_ & b & x & a & Hds & -> & Hx & Hall)];
      [exact Hall|].
    apply Forall_app. split; [exact Hall|].
    unfold ids_of in Hnd. rewrite Hds, map_app in Hnd. simpl in Hnd.
    apply NoDup_remove_2 in Hnd.
    apply List.Forall_forall. intros d Hd.
    destruct (matches sel d) eqn:E; [|reflexivity].
    exfalso. apply Hnd. apply in_or_app. right.
    apply matches_id in E, Hx. rewrite Hx, <- E.
    now apply (in_map (fun d => get d "_id")). }
  assert (F : fault_at w1 0 = None) by (unfold w1; now rewrite fault_at_stored).
  split.
  { intros Hin. exact (in_ids_matches _ _ _ Hin Hall). }
  split.
  { rewrite (get_resource_id_run _ _ _ _ Hid F). cbn [fst].
    fold c sel. now rewrite (find_nothing _ _ Hall). }
  rewrite (delete_resource_id_ok _ _ _ _ Hid F). cbn [fst snd].
  fold c sel. rewrite (remove_first_nothing _ _ Hall). cbn [fst snd].
  split; [reflexivity|apply docs_of_stored].
Qed.

Lemma delete_then_gone_witness :
  fst (delete_resource_id "widgets" hex_id w_widgets) =
    Responded (Response 204 NoBody) /\
  fst (get_resource_id "widgets" hex_id
         (snd (delete_resource_id "widgets" hex_id w_widgets))) =
    Responded (Response 404 (Text "Not Found")).
Proof.
  split; [reflexivity|].
  assert (Hnd : List.NoDup (ids_of w_widgets (camelize "widgets"))).
  { vm_compute. repeat constructor. intros []. }
  exact (proj1 (proj2 (delete_then_gone "widgets" hex_id hex_oid w_widgets
                         eq_refl eq_refl eq_refl Hnd))).
Defined.

(** ** Resource names *)

Lemma is_separator_toUpperCase (c : ascii) :
  is_separator c = false -> is_separator (toUpperCase c) = false.
Proof.
  destruct c as [[] [] [] [] [] [] [] []]; intros H;
    first [discriminate H | reflexivity].
Qed.

Lemma camelize_from_no_separator (s : string) :
  forall upper, no_separator (camelize_from upper s) = true.
Proof.
  induction s as [|c s IH]; intros upper; simpl; [reflexivity|].
  destruct (is_separator c) eqn:E; [apply IH|].
  simpl. rewrite IH, andb_true_r.
  destruct upper; [now rewrite is_separator_toUpperCase|now rewrite E].
Qed.

Lemma camelize_from_fixed (s : string) :
  no_separator s = true -> camelize_from false s = s.
Proof.
  induction s as [|c s IH]; simpl; [reflexivity|].
  intros H. apply andb_true_iff in H as [Hc Hs].
  apply negb_true_iff in Hc. rewrite Hc. now rewrite IH.
Qed.

Lemma no_separator_chars (s : string) :
  no_separator s = true ->
  List.Forall (fun c => is_space c = false) (list_ascii_of_string s).
Proof.
  induction s as [|c s IH]; simpl; intros H; [constructor|].
  apply andb_true_iff in H as [Hc Hs]. constructor; [|now apply IH].
  apply negb_true_iff in Hc. unfold is_separator in Hc.
  now destruct (is_space c).
Qed.

Lemma drop_spaces_fixed (l : list ascii) :
  List.Forall (fun c => is_space c = false) l -> drop_spaces l = l.
Proof. intros [|c l' Hc _]; simpl; [reflexivity|now rewrite Hc]. Qed.

Lemma trim_fixed (s : string) : no_separator s = true -> trim s = s.
Proof.
  intros H. apply no_separator_chars in H. unfold trim.
  rewrite (drop_spaces_fixed _ H).
  rewrite drop_spaces_fixed by (now apply List.Forall_rev).
  rewrite rev_involutive. apply string_of_list_ascii_of_string.
Qed.

Lemma camelize_no_separator (s : string) : no_separator (camelize s) = true.
Proof. apply camelize_from_no_separator. Qed.

Lemma camelize_not_hook (s : string) : camelize s <> "_hook".
Proof.
  intros H. pose proof (camelize_no_separator s) as Hn.
  rewrite H in Hn. discriminate Hn.
Qed.

Lemma ascii_only_chars (s : string) :
  ascii_only s = true <->
  List.Forall (fun c => (nat_of_ascii c <? 128)%nat = true)
              (list_ascii_of_string s).
Proof.
  induction s as [|c s IH]; simpl.
  - split; [constructor|reflexivity].
  - rewrite andb_true_iff, IH. split.
    + intros [Hc Hs]. now constructor.
    + intros H. inversion H; subst. now split.
Qed.

Lemma drop_spaces_Forall {P : ascii -> Prop} (l : list ascii) :
  List.Forall P l -> List.Forall P (drop_spaces l).
Proof.
  intros H. induction H as [|c l Hc Hl IH]; simpl; [constructor|].
  destruct (is_space c); [exact IH|now constructor].
Qed.

Lemma trim_ascii_only (s : string) : ascii_only s = true -> ascii_only (trim s) = true.
Proof.
  rewrite !ascii_only_chars. unfold trim. intros H.
  rewrite list_ascii_of_string_of_list_ascii.
  apply List.Forall_rev, drop_spaces_Forall, List.Forall_rev, drop_spaces_Forall.
  exact H.
Qed.

Lemma toUpperCase_ascii (c : ascii) :
  (nat_of_ascii c <? 128)%nat = true ->
  (nat_of_ascii (toUpperCase c) <? 128)%nat = true.
Proof.
  destruct c as [[] [] [] [] [] [] [] []]; intros H;
    first [discriminate H | reflexivity].
Qed.

Lemma camelize_from_ascii_only (s : string) :
  ascii_only s = true -> forall upper, ascii_only (camelize_from upper s) = true.
Proof.
  induction s as [|c s IH]; simpl; intros H upper; [reflexivity|].
  apply andb_true_iff in H as [Hc Hs].
  destruct (is_separator c); [now apply IH|].
  simpl. rewrite (IH Hs), andb_true_r.
  destruct upper; [now apply toUpperCase_ascii|exact Hc].
Qed.

(** X7: for a path segment of ASCII characters, the name
    [app.param('resource')] computes is of ASCII characters, has no
    dash, underscore or white space, and is its own canonical name; no
    such segment gives a name that has one of those characters, [_hook]
    among them; and each of the eight resource handlers, and the parent
    field of the nested ones, is the same for the segment and for its
    canonical name. *)
Theorem camelize_canonical (s : string) :
  ascii_only s = true ->
  ascii_only (camelize s) = true /\
  no_separator (camelize s) = true /\
  camelize (camelize s) = camelize s /\
  (forall name, no_separator name = false -> camelize s <> name) /\
  parentField_of (camelize s) = parentField_of s /\
  (forall query w, get_resource (camelize s) query w = get_resource s query w) /\
  (forall id w, get_resource_id (camelize s) id w = get_resource_id s id w) /\
  (forall mainResource id query w,
     get_nested mainResource id (camelize s) query w =
       get_nested mainResource id s query w) /\
  (forall body w, post_resource (camelize s) body w = post_resource s body w) /\
  (forall mainResource id body w,
     post_nested mainResource id (camelize s) body w =
       post_nested mainResource id s body w) /\
  (forall id body w,
     put_resource_id (camelize s) id body w = put_resource_id s id body w) /\
  (forall id w, delete_resource_id (camelize s) id w = delete_resource_id s id w) /\
  (forall w, get_collection_resource (camelize s) w = get_collection_resource s w).
Proof.
  intros Hascii.
  pose proof (camelize_no_separator s) as Hn.
  assert (Hfix : camelize (camelize s) = camelize s).
  { unfold camelize at 1. rewrite (trim_fixed _ Hn).
    now apply camelize_from_fixed. }
  split.
  { unfold camelize. apply camelize_from_ascii_only. now apply trim_ascii_only. }
  split; [exact Hn|]. split; [exact Hfix|]. split.
  { intros name Hname E. rewrite E in Hn. congruence. }
  unfold parentField_of, get_resource, get_resource_id, get_nested,
    post_resource, post_nested, put_resource_id, delete_resource_id,
    get_collection_resource, param_resource.
  rewrite Hfix. repeat split.
Qed.

Lemma camelize_canonical_witness :
  ascii_only "build-queue" = true /\
  camelize "build-queue" = "buildQueue" /\
  camelize (camelize "build-queue") = camelize "build-queue".
Proof.
  split; [reflexivity|]. split; [reflexivity|].
  exact (proj1 (proj2 (proj2 (camelize_canonical "build-queue" eq_refl)))).
Defined.

(** ** What a route touches *)

Lemma only_touches_refl (c : string) (w : world) : only_touches c w w.
Proof.
  split; [|reflexivity]. exists []. split; [now rewrite app_nil_r|constructor].
Qed.

Lemma only_touches_called (o : op) (w : world) :
  only_touches (op_collection o) w (called o w).
Proof.
  split; [|reflexivity]. exists [o]. split; [reflexivity|].
  constructor; [reflexivity|constructor].
Qed.

Lemma only_touches_stored (o : op) (ds : list obj) (w : world) :
  only_touches (op_collection o) w (stored o (op_collection o) ds w).
Proof.
  split.
  - exists [o]. split; [reflexivity|]. constructor; [reflexivity|constructor].
  - intros c' Hc'. unfold docs_of, stored. cbn [colls].
    rewrite lookup_insert_ne by congruence. reflexivity.
Qed.

Lemma only_touches_insert (c : string) (doc : obj) (w : world) :
  only_touches c w (snd (Collection.insert c doc w)).
Proof.
  destruct (fault_at w 0) as [e|] eqn:F.
  - rewrite (insert_failed _ _ _ _ F).
    exact (only_touches_called (OpInsert c doc) w).
  - destruct (insert_ok c doc w F) as (doc' & -> & _). cbn [snd]. split.
    + exists [OpInsert c doc]. split; [reflexivity|].
      constructor; [reflexivity|constructor].
    + intros c' Hc'. unfold docs_of. cbn [colls].
      rewrite lookup_insert_ne by congruence. reflexivity.
Qed.

Lemma only_touches_find (c : string) (filter : obj) (w : world) :
  snd (Collection.find c filter w) = called (OpFind c filter) w.
Proof.
  destruct (fault_at w 0) as [e|] eqn:F;
    [now rewrite (find_failed _ _ _ _ F)|now rewrite (find_ok _ _ _ F)].
Qed.

Lemma only_touches_findOne (c : string) (filter : obj) (w : world) :
  snd (Collection.findOne c filter w) = called (OpFindOne c filter) w.
Proof.
  destruct (fault_at w 0) as [e|] eqn:F;
    [now rewrite (findOne_failed _ _ _ _ F)|now rewrite (findOne_ok _ _ _ F)].
Qed.

Lemma only_touches_update (c : string) (sel doc : obj) (w : world) :
  only_touches c w (snd (Collection.update c sel doc w)).
Proof.
  destruct (fault_at w 0) as [e|] eqn:F.
  - rewrite (update_failed _ _ _ _ _ F).
    exact (only_touches_called (OpUpdate c sel doc) w).
  - rewrite (update_ok _ _ _ _ F).
    exact (only_touches_stored (OpUpdate c sel doc) _ w).
Qed.

Lemma only_touches_remove (c : string) (sel : obj) (w : world) :
  only_touches c w (snd (Collection.remove c sel w)).
Proof.
  destruct (fault_at w 0) as [e|] eqn:F.
  - rewrite (remove_failed _ _ _ _ F).
    exact (only_touches_called (OpRemove c sel) w).
  - rewrite (remove_ok _ _ _ F).
    exact (only_touches_stored (OpRemove c sel) _ w).
Qed.

Lemma post_resource_world (resource : string) (body : obj) (w : world) :
  snd (post_resource resource (Some body) w) =
  snd (Collection.insert (camelize resource)
         (set (set body "createdAt" (VDate (clock w)))
              "updatedAt" (VDate (clock w))) w).
Proof.
  unfold post_resource, param_resource, bind, new_Date. cbn [fst snd].
  rewrite get_set_same.
  destruct (Collection.insert _ _ w) as [[e|d] w1]; reflexivity.
Qed.

Lemma get_collection_resource_touches (resource : string) (w : world) :
  only_touches (camelize resource) w (snd (get_collection_resource resource w)).
Proof.
  unfold get_collection_resource, param_resource, bind.
  destruct (fault_at w 0) as [e|] eqn:F.
  - unfold Collection.count, bind, call. cbn [fst snd]. rewrite F.
    exact (only_touches_called (OpCount _) w).
  - rewrite (count_ok _ _ F). cbn [fst snd].
    set (w1 := called _ w).
    pose proof (only_touches_find (camelize resource) [] w1) as E.
    destruct (Collection.find _ _ w1) as [[e|d] w2]; cbn [fst snd] in *;
      subst w2; (split; [|reflexivity]);
      exists [OpCount (camelize resource); OpFind (camelize resource) []];
      (split; [unfold w1, called; cbn [trace]; now rewrite <- app_assoc|]);
      (constructor; [reflexivity|constructor; [reflexivity|constructor]]).
Qed.

(** X8: each resource route makes its store calls on the collection
    named by the canonical name of its [:resource] segment and changes
    no other collection; in particular none of them changes the webhook
    records in [_hook]. *)
Theorem routes_touch_their_collection (resource : string) (w : world) :
  let c := camelize resource in
  let touched (r : outcome * world) :=
    only_touches c w (snd r) /\ docs_of (snd r) "_hook" = docs_of w "_hook" in
  (forall query, touched (get_resource resource query w)) /\
  (forall id, touched (get_resource_id resource id w)) /\
  (forall mainResource id query,
     touched (get_nested mainResource id resource query w)) /\
  (forall body, touched (post_resource resource body w)) /\
  (forall mainResource id body,
     touched (post_nested mainResource id resource body w)) /\
  (forall id body, touched (put_resource_id resource id body w)) /\
  (forall id, touched (delete_resource_id resource id w)) /\
  touched (get_collection_resource resource w).
Proof.
  cbv zeta.
  assert (Hhook : forall w', only_touches (camelize resource) w w' ->
            only_touches (camelize resource) w w' /\
            docs_of w' "_hook" = docs_of w "_hook").
  { intros w' H. split; [exact H|]. apply H.
    intros E. exact (camelize_not_hook resource (eq_sym E)). }
  repeat split_and; intros; apply Hhook.
  - unfold get_resource, param_resource, bind.
    pose proof (only_touches_find (camelize resource) query w) as E.
    destruct (Collection.find _ _ w) as [[e|d] w1]; cbn [fst snd] in *;
      subst w1; exact (only_touches_called (OpFind _ _) w).
  - unfold get_resource_id, param_resource, param_id.
    destruct (ObjectID id) as [oid|]; [|apply only_touches_refl].
    unfold bind.
    pose proof (only_touches_findOne (camelize resource) [("_id", VId oid)] w) as E.
    destruct (Collection.findOne _ _ w) as [[e|[d|]] w1]; cbn [fst snd] in *;
      subst w1; exact (only_touches_called (OpFindOne _ _) w).
  - unfold get_nested, param_mainResource, param_resource, param_id.
    destruct (ObjectID id) as [oid|]; [|apply only_touches_refl].
    unfold bind.
    pose proof (only_touches_find (camelize resource)
                  (set query (String.append (camelize mainResource) "Id") (VId oid)) w) as E.
    destruct (Collection.find _ _ w) as [[e|d] w1]; cbn [fst snd] in *;
      subst w1; exact (only_touches_called (OpFind _ _) w).
  - destruct body as [body|]; [|apply only_touches_refl].
    rewrite post_resource_world. apply only_touches_insert.
  - unfold post_nested, param_mainResource, param_resource, param_id.
    destruct (ObjectID id) as [oid|]; [|apply only_touches_refl].
    destruct body as [body|]; [|apply only_touches_refl].
    unfold bind, new_Date. cbn [fst snd].
    match goal with
    | |- context [Collection.insert ?c ?d w] =>
        pose proof (only_touches_insert c d w) as E;
        destruct (Collection.insert c d w) as [[e|d'] w1]
    end; exact E.
  - unfold put_resource_id, param_resource, param_id.
    destruct (ObjectID id) as [oid|]; [|apply only_touches_refl].
    destruct body as [body|]; [|apply only_touches_refl].
    unfold bind, new_Date. cbn [fst snd].
    match goal with
    | |- context [Collection.update ?c ?s ?d w] =>
        pose proof (only_touches_update c s d w) as E;
        destruct (Collection.update c s d w) as [[e|d'] w1]
    end; exact E.
  - unfold delete_resource_id, param_resource, param_id.
    destruct (ObjectID id) as [oid|]; [|apply only_touches_refl].
    unfold bind.
    match goal with
    | |- context [Collection.remove ?c ?s w] =>
        pose proof (only_touches_remove c s w) as E;
        destruct (Collection.remove c s w) as [[e|n] w1]
    end; cbn [fst snd] in *; [exact E|].
    destruct (n =? 0); exact E.
  - apply get_collection_resource_touches.
  - apply get_collection_resource_touches.
Qed.

(** ** GET /_collection *)

(** The [reduce] keeps, in order, the stripped names that pass. *)
Lemma fold_push_visible (cs : list Driver.entry) (acc : list string) :
  fold_left push_visible cs acc =
  acc ++ List.filter visible (map (fun c => strip_dbName (Driver.name c)) cs).
Proof.
  revert acc. induction cs as [|c cs IH]; intros acc; simpl.
  - now rewrite app_nil_r.
  - rewrite IH. unfold push_visible, visible.
    destruct (_ && _); [now rewrite <- app_assoc|reflexivity].
Qed.

Lemma indexOf_absent (s sub : string) :
  sub <> EmptyString ->
  (indexOf s sub <? 0) = true <->
  forall m, String.substring m (String.length sub) s <> sub.
Proof.
  intros Hsub. unfold indexOf.
  destruct (String.index 0 sub s) as [n|] eqn:E.
  - split.
    + intros H. apply Z.ltb_lt in H. lia.
    + intros H. exfalso. exact (H n (String.index_correct1 _ _ _ _ E)).
  - split; [|reflexivity]. intros _ m.
    apply (String.index_correct3 0 m sub s E Hsub). lia.
Qed.

Lemma indexOf_underscore (s : string) :
  (indexOf s "_" =? 0) = true <-> exists rest, s = String "_" rest.
Proof.
  unfold indexOf. split.
  - destruct (String.index 0 "_" s) as [n|] eqn:E; [|discriminate].
    intros H. apply Z.eqb_eq in H. assert (n = 0%nat) by lia. subst n.
    apply String.index_correct1 in E. destruct s as [|c s]; [discriminate E|].
    simpl in E. destruct s; injection E as ->; eexists; reflexivity.
  - intros [rest ->]. destruct rest; reflexivity.
Qed.

Lemma after_prefix_some (p : string) :
  forall s rest, after_prefix p s = Some rest -> s = String.append p rest.
Proof.
  induction p as [|a p IH]; intros s rest H.
  - simpl in H. now injection H as <-.
  - destruct s as [|b s]; [discriminate H|]. simpl in H.
    destruct (Ascii.eqb_spec a b) as [->|_]; [|discriminate H].
    change (String b s = String b (String.append p rest)).
    f_equal. now apply IH.
Qed.

(** A name without the database prefix is left as it is. *)
Lemma strip_dbName_other (name : string) :
  (forall rest, name <> String.append "inhouse." rest) ->
  strip_dbName name = name.
Proof.
  intros H. unfold strip_dbName.
  destruct (after_prefix (String.append dbName ".") name) as [rest|] eqn:E;
    [|reflexivity].
  apply after_prefix_some in E. exfalso. exact (H rest E).
Qed.

Lemma visible_spec (name : string) :
  visible name = true <->
  (forall m, String.substring m 7 name <> "system.") /\
  (forall rest, name <> String "_" rest).
Proof.
  unfold visible. rewrite andb_true_iff, negb_true_iff.
  rewrite (indexOf_absent name "system.") by discriminate.
  split; intros [H1 H2]; (split; [exact H1|]).
  - intros rest E.
    assert (Hu : (indexOf name "_" =? 0) = true)
      by (apply indexOf_underscore; eauto).
    congruence.
  - destruct (indexOf name "_" =? 0) eqn:E; [|reflexivity].
    apply indexOf_underscore in E as [rest E]. exfalso. exact (H2 rest E).
Qed.

(** X9: GET /_collection answers 500 with the error of the driver, and
    otherwise 200 with, in the order of the driver, the names it
    reported, each without the database prefix [inhouse.] when it has
    it and as it is when it has not, that have no [system.] anywhere in
    them and do not start with an underscore; the world is as the
    driver left it. *)
Theorem collection_listing (cn : M (reply (list Driver.entry))) (w : world) :
  snd (get_collection cn w) = snd (cn w) /\
  (forall e, fst (cn w) = Failed e ->
     fst (get_collection cn w) = Responded (Response 500 (Json e))) /\
  (forall cs, fst (cn w) = Done cs ->
     exists names,
       fst (get_collection cn w) =
         Responded (Response 200 (Json (VArr (map VStr names)))) /\
       names = List.filter visible
                 (map (fun c => strip_dbName (Driver.name c)) cs) /\
       forall name,
         In name names <->
         (exists c, strip_dbName (Driver.name c) = name /\ In c cs) /\
         (forall m, String.substring m 7 name <> "system.") /\
         (forall rest, name <> String "_" rest)) /\
  (forall rest, strip_dbName (String.append "inhouse." rest) = rest) /\
  (forall name,
     (forall rest, name <> String.append "inhouse." rest) ->
     strip_dbName name = name).
Proof.
  unfold get_collection, bind.
  destruct (cn w) as [[e|cs] w1]; cbn [fst snd].
  - split; [reflexivity|]. split; [now intros e' [= <-]|].
    split; [discriminate|]. split; [reflexivity|apply strip_dbName_other].
  - split; [reflexivity|]. split; [discriminate|].
    split; [|split; [reflexivity|apply strip_dbName_other]].
    intros cs' [= <-]. eexists. split; [reflexivity|].
    rewrite fold_push_visible. split; [reflexivity|].
    intros name. rewrite app_nil_l, filter_In, in_map_iff, visible_spec.
    reflexivity.
Qed.

Lemma collection_listing_witness :
  fst (get_collection (ret (Done reported)) w0) =
    Responded
      (Response 200
         (Json (VArr [VStr "widgets"; VStr "audit"; VStr "buildqueue"]))).
Proof.
  destruct (collection_listing (ret (Done reported)) w0) as (_ & _ & H & _ & _).
  destruct (H reported eq_refl) as (names & -> & -> & _). reflexivity.
Defined.

(** ** The webhook route, continued *)

(** X10: when the payload of a push to master is recorded and the insert
    of its build job then fails, the answer is 500 with that error; the
    record stays in [_hook], and the build queue is as it was. *)
Theorem hook_enqueue_failure (endpoint : option string) (body : obj)
  (w : world) (e : value) :
  fault_at w 0 = None -> fault_at w 1 = Some e ->
  get body "ref" = VStr master ->
  nullish (get body "repository") = false ->
  let out := fst (post_hook endpoint body w) in
  let w' := snd (post_hook endpoint body w) in
  out = Responded (Response 500 (Json e)) /\
  (exists record,
     docs_of w' "_hook" = docs_of w "_hook" ++ [record] /\
     forall k, k <> "_id" -> get record k = get body k) /\
  docs_of w' "buildqueue" = docs_of w "buildqueue".
Proof.
  intros F0 F1 Href Hrepo. cbv zeta.
  destruct (insert_ok "_hook" body w F0) as (record & E & Er).
  unfold post_hook, bind. rewrite E. cbn [fst snd].
  set (w1 := World _ _ _ _ _).
  rewrite Href. cbn [truthy strict_eq_str negb].
  change (String.eqb master "") with false. cbn [negb].
  change (String.eqb master "refs/heads/master") with true. cbn [negb].
  cbv beta.
  destruct (build_job_some endpoint body w1 Hrepo) as (build & -> & _).
  cbn [fst snd].
  assert (F : fault_at w1 0 = Some e).
  { unfold fault_at in *. cbn [faults w1].
    destruct (faults w) as [|f fs]; [discriminate F1|exact F1]. }
  rewrite (insert_failed _ _ _ _ F). answer.
  split; [reflexivity|]. split.
  - exists record. split.
    + unfold docs_of. cbn [colls w1]. now rewrite lookup_insert_eq.
    + intros k Hk. rewrite Er.
      destruct (nullish (get body "_id")); [|reflexivity].
      apply get_set_other. congruence.
  - unfold docs_of. cbn [colls w1]. now rewrite lookup_insert_ne.
Qed.

Lemma hook_enqueue_failure_witness :
  fst (post_hook None master_push w_queue_down) =
    Responded (Response 500 (Json (VStr "E11000"))) /\
  docs_of (snd (post_hook None master_push w_queue_down)) "buildqueue" = [].
Proof.
  destruct (hook_enqueue_failure None master_push w_queue_down (VStr "E11000")
              eq_refl eq_refl eq_refl eq_refl) as (Hout & _ & Hq).
  split; [exact Hout|exact Hq].
Defined.

Lemma docs_of_insert_other (c c' : string) (doc : obj) (w : world) :
  c' <> c -> docs_of (snd (Collection.insert c doc w)) c' = docs_of w c'.
Proof.
  intros H. exact (proj2 (only_touches_insert c doc w) c' H).
Qed.

Lemma trace_insert (c : string) (doc : obj) (w : world) :
  trace (snd (Collection.insert c doc w)) = trace w ++ [OpInsert c doc].
Proof.
  destruct (fault_at w 0) as [e|] eqn:F.
  - now rewrite (insert_failed _ _ _ _ F).
  - destruct (insert_ok c doc w F) as (doc' & -> & _). reflexivity.
Qed.

(** X11: whatever the payload and the answers of the store, the webhook
    route makes at most two store calls, each an insert into [_hook] or
    into [buildqueue]; it reads, replaces and removes nothing, and every
    other collection is as it was. *)
Theorem hook_only_inserts (endpoint : option string) (body : obj) (w : world) :
  let w' := snd (post_hook endpoint body w) in
  (exists ops,
     trace w' = trace w ++ ops /\ (length ops <= 2)%nat /\
     List.Forall hook_insert ops) /\
  (forall c, c <> "_hook" -> c <> "buildqueue" -> docs_of w' c = docs_of w c).
Proof.
  cbv zeta. unfold post_hook, bind.
  pose proof (trace_insert "_hook" body w) as Ht.
  pose proof (fun c H => docs_of_insert_other "_hook" c body w H) as Hd.
  destruct (Collection.insert "_hook" body w) as [[e|record] w1].
  all: cbn [fst snd] in *.
  - answer. split.
    + exists [OpInsert "_hook" body]. split; [exact Ht|]. split; [simpl; lia|].
      constructor; [|constructor]. exists body. now left.
    + intros c H1 _. now apply Hd.
  - assert (Hone : (exists ops,
               trace w1 = trace w ++ ops /\ (length ops <= 2)%nat /\
               List.Forall hook_insert ops) /\
             (forall c, c <> "_hook" -> c <> "buildqueue" ->
                        docs_of w1 c = docs_of w c)).
    { split.
      - exists [OpInsert "_hook" body]. split; [exact Ht|]. split; [simpl; lia|].
        constructor; [|constructor]. exists body. now left.
      - intros c H1 _. now apply Hd. }
    destruct (negb (truthy (get body "ref"))); [answer; exact Hone|].
    destruct (negb (strict_eq_str (get body "ref") "refs/heads/master"));
      [answer; exact Hone|].
    destruct (nullish (get body "repository")) eqn:R.
    { rewrite (build_job_none _ _ _ R). answer. exact Hone. }
    destruct (build_job_some endpoint body w1 R) as (build & -> & _).
    cbn [fst snd].
    pose proof (trace_insert "buildqueue" build w1) as Ht2.
    pose proof (fun c H => docs_of_insert_other "buildqueue" c build w1 H) as Hd2.
    destruct (Collection.insert "buildqueue" build w1) as [[e|job] w2].
    all: cbn [fst snd] in *; answer.
    all: split;
      [exists [OpInsert "_hook" body; OpInsert "buildqueue" build];
       split; [now rewrite Ht2, Ht, <- app_assoc|];
       split; [simpl; lia|];
       constructor; [exists body; now left|];
       constructor; [exists build; now right|constructor]
      |intros c H1 H2; rewrite Hd2 by exact H2; now apply Hd].
Qed.

(** ** Schema inference, continued *)

Lemma keys_baseMerge (source : obj) :
  forall object k,
    In k (keys (baseMerge object source)) <->
    In k (keys object) \/ In k (keys source).
Proof.
  induction source as [|[k1 v1] rest IH]; intros object k; simpl.
  - tauto.
  - rewrite IH, keys_set. intuition.
Qed.

Lemma keys_merge_all (cursor : list obj) (k : string) :
  In k (keys (merge_all cursor)) <->
  exists doc, In doc cursor /\ In k (keys doc).
Proof.
  induction cursor as [|doc cursor IH] using rev_ind.
  - simpl. split; [tauto|]. intros (doc & [] & _).
  - rewrite merge_all_snoc. unfold merge. simpl fold_left.
    rewrite !keys_baseMerge, IH. simpl. split.
    + intros [[[]|(d & Hd & Hk)]|Hk].
      * exists d. split; [apply in_or_app; now left|exact Hk].
      * exists doc. split; [apply in_or_app; right; now left|exact Hk].
    + intros (d & Hd & Hk). apply in_app_or in Hd as [Hd|[<-|[]]].
      * left. right. now exists d.
      * now right.
Qed.

Lemma keys_del_iff (o : obj) (k k' : string) :
  In k (keys (del o k')) <-> In k (keys o) /\ k <> k'.
Proof.
  induction o as [|[k1 v1] o IH]; simpl; [tauto|].
  destruct (String.eqb_spec k1 k') as [->|Hk]; simpl; rewrite IH.
  - intuition congruence.
  - intuition congruence.
Qed.

Lemma NoDup_keys_set (o : obj) (k : string) (v : value) :
  List.NoDup (keys o) -> List.NoDup (keys (set o k v)).
Proof.
  induction o as [|[k1 v1] o IH]; simpl; intros H.
  - constructor; [intros []|constructor].
  - inversion H as [|? ? Hk1 Ho]; subst.
    destruct (String.eqb_spec k1 k) as [->|Hk]; simpl; [exact H|].
    constructor; [|now apply IH].
    rewrite keys_set. intros [E|Hin]; [congruence|contradiction].
Qed.

Lemma NoDup_keys_baseMerge (source : obj) :
  forall object, List.NoDup (keys object) ->
                 List.NoDup (keys (baseMerge object source)).
Proof.
  induction source as [|[k1 v1] rest IH]; intros object H; simpl;
    [exact H|].
  apply IH. now apply NoDup_keys_set.
Qed.

Lemma NoDup_keys_del (o : obj) (k : string) :
  List.NoDup (keys o) -> List.NoDup (keys (del o k)).
Proof.
  induction o as [|[k1 v1] o IH]; simpl; intros H; [constructor|].
  inversion H as [|? ? Hk1 Ho]; subst.
  destruct (String.eqb k1 k); [now apply IH|]. simpl.
  constructor; [|now apply IH]. rewrite keys_del_iff. tauto.
Qed.

(** The accumulator never lists a key twice. *)
Lemma NoDup_keys_merge_all (cursor : list obj) :
  List.NoDup (keys (merge_all cursor)).
Proof.
  induction cursor as [|doc cursor IH] using rev_ind; [constructor|].
  rewrite merge_all_snoc. unfold merge. simpl fold_left.
  apply NoDup_keys_baseMerge, NoDup_keys_baseMerge. constructor.
Qed.

(** X12: the object handed to [schema.fromObject] has exactly the field
    names found in some document of the collection, [_id] apart, each
    once. *)
Theorem schema_fields_union (cursor : list obj) :
  (forall k,
     In k (keys (del (merge_all cursor) "_id")) <->
     k <> "_id" /\ exists doc, In doc cursor /\ In k (keys doc)) /\
  List.NoDup (keys (del (merge_all cursor) "_id")).
Proof.
  split.
  - intros k. rewrite keys_del_iff, keys_merge_all. tauto.
  - apply NoDup_keys_del, NoDup_keys_merge_all.
Qed.

Lemma get_in (o : obj) (k : string) (v : value) :
  get o k = v -> v <> VUndefined -> In (k, v) o.
Proof.
  induction o as [|[k1 v1] o IH]; simpl; intros H Hv; [congruence|].
  destruct (String.eqb_spec k1 k) as [->|Hk]; [left; congruence|].
  right. now apply IH.
Qed.

Lemma is_scalar_defined (v : value) : is_scalar v = true -> v <> VUndefined.
Proof. intros H ->. discriminate H. Qed.

(** A value that is neither an object, nor an array, nor [undefined]
    goes through [_.merge({}, merged)] as it is. *)
Lemma clone_scalar (merged : obj) (k : string) (v : value) :
  List.NoDup (keys merged) -> get merged k = v -> is_scalar v = true ->
  get (baseMerge [] merged) k = v.
Proof.
  intros Hnd Hget Hv.
  rewrite (baseMerge_get [] merged k v Hnd).
  - now apply merge_value_scalar.
  - apply get_in; [exact Hget|now apply is_scalar_defined].
Qed.

(** X13: across the whole stream the last document that has a field
    decides it when its value there is neither an object, nor an array,
    nor [undefined]: whatever the earlier documents held, the
    accumulator ends with that value. *)
Theorem last_scalar_wins (earlier later : list obj) (doc : obj)
  (k : string) (v : value) :
  List.NoDup (keys doc) -> In (k, v) doc -> is_scalar v = true ->
  List.Forall (fun d => ~ In k (keys d)) later ->
  get (merge_all (earlier ++ doc :: later)) k = v.
Proof.
  intros Hnd Hin Hv Hlater.
  induction later as [|d later IH] using rev_ind.
  - rewrite merge_all_snoc. unfold merge. simpl fold_left.
    rewrite (baseMerge_get _ doc k v Hnd Hin). now apply merge_value_scalar.
  - apply List.Forall_app in Hlater as [Hl Hd].
    inversion Hd as [|? ? Hk _]; subst.
    change (earlier ++ doc :: later ++ [d])
      with (earlier ++ (doc :: later) ++ [d]).
    rewrite app_assoc, merge_all_snoc. unfold merge. simpl fold_left.
    rewrite (baseMerge_get_other _ d k Hk).
    apply clone_scalar; [apply NoDup_keys_merge_all|now apply IH|exact Hv].
Qed.

Lemma last_scalar_wins_witness :
  get (merge_all ([doc_a] ++ doc_b :: [tags_a])) "a" = VStr "x".
Proof.
  apply last_scalar_wins.
  - repeat constructor; simpl; intuition discriminate.
  - right. now left.
  - reflexivity.
  - constructor; [|constructor]. simpl. intuition discriminate.
Defined.

(** ** GET /_collection/:resource, continued *)

Lemma count_failed (c : string) (w : world) (e : value) :
  fault_at w 0 = Some e ->
  Collection.count c w = (Failed e, called (OpCount c) w).
Proof.
  intros H. unfold Collection.count, bind, call. cbn [fst snd]. now rewrite H.
Qed.

(** X14: GET /_collection/:resource changes no collection. When the
    count fails it answers 500 with that error and does not query; when
    the count succeeds and the query fails it answers 500 with the
    error of the query. *)
Theorem schema_route_errors (resource : string) (w : world) :
  let c := camelize resource in
  let out := fst (get_collection_resource resource w) in
  let w' := snd (get_collection_resource resource w) in
  colls w' = colls w /\
  (forall e, fault_at w 0 = Some e ->
     out = Responded (Response 500 (Json e)) /\
     trace w' = trace w ++ [OpCount c]) /\
  (forall e, fault_at w 0 = None -> fault_at w 1 = Some e ->
     out = Responded (Response 500 (Json e)) /\
     trace w' = trace w ++ [OpCount c; OpFind c []]).
Proof.
  cbv zeta. unfold get_collection_resource, param_resource, bind.
  destruct (fault_at w 0) as [e|] eqn:F0.
  - rewrite (count_failed _ _ _ F0). answer.
    split; [reflexivity|]. split; [|discriminate].
    intros e' [= <-]. split; reflexivity.
  - rewrite (count_ok _ _ F0). cbn [fst snd].
    set (w1 := called _ w).
    destruct (fault_at w 1) as [e|] eqn:F1.
    + rewrite find_failed with (e := e)
        by (unfold w1; now rewrite fault_at_called).
      answer. split; [reflexivity|]. split; [discriminate|].
      intros e' _ [= <-]. split; [reflexivity|].
      unfold w1, called. cbn [trace]. now rewrite <- app_assoc.
    + rewrite find_ok by (unfold w1; now rewrite fault_at_called).
      answer. split; [reflexivity|]. split; discriminate.
Qed.

(** ** Nested resources, continued *)

(** POST /:mainResource/:id/:resource when the store takes the child. *)
Lemma post_nested_ok (mainResource id oid resource : string) (body : obj)
  (w : world) :
  ObjectID id = Some oid -> fault_at w 0 = None ->
  exists child w1,
    post_nested mainResource id resource (Some body) w =
      (Responded (Response 200 (Json (VObj child))), w1) /\
    get child (parentField_of mainResource) = VId oid /\
    docs_of w1 (camelize resource) = docs_of w (camelize resource) ++ [child] /\
    forall n, fault_at w1 n = fault_at w (S n).
Proof.
  intros Hid F.
  unfold post_nested, param_mainResource, param_id, param_resource.
  rewrite Hid. unfold bind, new_Date. cbn [fst snd]. rewrite get_set_same.
  fold (parentField_of mainResource).
  set (pf := parentField_of mainResource).
  set (doc := set (set (set body pf (VId oid)) "createdAt" (VDate (clock w)))
                  "updatedAt" (VDate (clock w))).
  assert (Hdoc : get doc pf = VId oid).
  { unfold doc.
    rewrite get_set_other
      by (intros E; symmetry in E; exact (parentField_not_updatedAt _ E)).
    rewrite get_set_other
      by (intros E; symmetry in E; exact (parentField_not_createdAt _ E)).
    apply get_set_same. }
  destruct (insert_ok (camelize resource) doc w F) as (child & -> & Ec).
  answer. eexists. eexists. split; [reflexivity|]. split; [|split].
  - subst child. destruct (nullish (get doc "_id")); [|exact Hdoc].
    rewrite get_set_other; [exact Hdoc|].
    intros E. symmetry in E. exact (parentField_not_id _ E).
  - unfold docs_of at 1. cbn [colls]. now rewrite lookup_insert_eq.
  - intros n. unfold fault_at. cbn [faults].
    destruct (faults w); destruct n; reflexivity.
Qed.

(** GET /:mainResource/:id/:resource when the store answers. *)
Lemma get_nested_ok (mainResource id oid resource : string) (query : obj)
  (w : world) :
  ObjectID id = Some oid -> fault_at w 0 = None ->
  fst (get_nested mainResource id resource query w) =
    Responded
      (Response 200
         (Stream (List.filter
                    (matches (set query (parentField_of mainResource) (VId oid)))
                    (docs_of w (camelize resource))))).
Proof.
  intros Hid F.
  unfold get_nested, param_mainResource, param_id, param_resource.
  rewrite Hid. unfold bind. rewrite (find_ok _ _ _ F). reflexivity.
Qed.

(** X15: a child created under a parent is listed under that parent, and
    is not listed under a parent with another identifier. *)
Theorem nested_post_then_list (mainResource id oid resource : string)
  (body : obj) (w : world) :
  ObjectID id = Some oid ->
  fault_at w 0 = None -> fault_at w 1 = None ->
  let w1 := snd (post_nested mainResource id resource (Some body) w) in
  exists child,
    fst (post_nested mainResource id resource (Some body) w) =
      Responded (Response 200 (Json (VObj child))) /\
    (exists docs,
       fst (get_nested mainResource id resource [] w1) =
         Responded (Response 200 (Stream docs)) /\
       In child docs) /\
    (forall id' oid',
       ObjectID id' = Some oid' -> oid' <> oid ->
       exists docs,
         fst (get_nested mainResource id' resource [] w1) =
           Responded (Response 200 (Stream docs)) /\
         ~ In child docs).
Proof.
  intros Hid F0 F1. cbv zeta.
  destruct (post_nested_ok mainResource id oid resource body w Hid F0)
    as (child & w1 & -> & Hc & Hd & Hf).
  cbn [fst snd]. exists child. split; [reflexivity|].
  assert (F : fault_at w1 0 = None) by (now rewrite Hf).
  split.
  - eexists. split; [exact (get_nested_ok _ _ _ _ _ _ Hid F)|].
    apply filter_In. split.
    + rewrite Hd. apply in_or_app. right. now left.
    + apply matches_spec. intros k v [[= <- <-]|[]]. exact Hc.
  - intros id' oid' Hid' Hne. eexists.
    split; [exact (get_nested_ok _ _ _ _ _ _ Hid' F)|].
    intros Hin. apply filter_In in Hin as [_ Hm].
    rewrite matches_spec in Hm.
    specialize (Hm (parentField_of mainResource) (VId oid') (or_introl eq_refl)).
    rewrite Hc in Hm. congruence.
Qed.

Lemma nested_post_then_list_witness :
  exists child docs,
    fst (get_nested "repos" hex_id "issues" []
           (snd (post_nested "repos" hex_id "issues"
                   (Some [("title", VStr "leak")]) w0))) =
      Responded (Response 200 (Stream docs)) /\
    In child docs.
Proof.
  destruct (nested_post_then_list "repos" hex_id hex_oid "issues"
              [("title", VStr "leak")] w0 eq_refl eq_refl eq_refl)
    as (child & _ & (docs & Hget & Hin) & _).
  exists child, docs. split; [exact Hget|exact Hin].
Defined.

(** ** Identifiers stay unique *)


